(** * analyz.py: classification and heuristic scoring of a mixed
      Windows-event / DNS log export.

    A shallow embedding of [src/analyz.py] and the properties of its
    pipeline: [normalize_time], [split_logs], [suspicious_wineventlog],
    [suspicious_dns] and the aggregation at the end of [main].

    The program is written against pandas.  The part of pandas it uses is
    modelled as functions over lists:

    - a character is a code point below 256 and a string a sequence of
      them; [lower], [strip] and the character classes of the patterns are
      those of Python on this range, and text with characters beyond it is
      outside the model;
    - a cell of the loaded table is text or missing ([NaN]), as in the
      export the program reads; after [normalize_time] the [_time] column
      holds timestamps or [NaT];
    - a [DataFrame] is its list of column names and its list of rows, each
      row aligned with the columns; a row shorter than the column list is
      missing its trailing fields;
    - a Python exception is a value of [exn], and a call that may raise
      returns a [result];
    - the pandas modelled is pandas 2: [astype(str)] writes a missing cell
      as ["nan"], and [value_counts().reset_index()] names its columns after
      the series and "count";
    - a sort by count, descending, keeps rows of equal count in their
      order, which pandas does not promise; no statement below depends on
      the order or the choice of rows of equal count.
*)

From Stdlib Require Import List String Ascii Bool Arith Lia.
From Stdlib Require Import Sorting.Permutation Sorting.Sorted.
From Stdlib Require Import NArith.
Import ListNotations.
Local Open Scope string_scope.
Local Open Scope list_scope.
Local Open Scope nat_scope.

(** ** Exceptions *)

Inductive exn : Type :=
| KeyError (key : string).

Inductive result (A : Type) : Type :=
| Ok (a : A)
| Raise (e : exn).
Arguments Ok {A} a.
Arguments Raise {A} e.

Definition bind {A B : Type} (r : result A) (k : A -> result B) : result B :=
  match r with
  | Ok a => k a
  | Raise e => Raise e
  end.

Notation "x <- e ;; k" := (bind e (fun x => k))
  (at level 61, e at next level, right associativity).

Definition raises {A : Type} (r : result A) : Prop :=
  exists e, r = Raise e.

(** ** Python strings *)

Module Str.

Definition code (c : ascii) : nat := nat_of_ascii c.

Definition between (lo hi : nat) (c : ascii) : bool :=
  (lo <=? code c) && (code c <=? hi).

(** [str.isspace] on a single character. *)
Definition is_space (c : ascii) : bool :=
  between 9 13 c || between 28 32 c || (code c =? 133) || (code c =? 160).

(** [\d]. *)
Definition is_digit (c : ascii) : bool := between 48 57 c.

(** [[a-zA-Z]]. *)
Definition is_alpha (c : ascii) : bool := between 65 90 c || between 97 122 c.

(** [[a-zA-Z0-9\-]]. *)
Definition is_label_char (c : ascii) : bool :=
  is_alpha c || is_digit c || (code c =? 45).

Definition is_dot (c : ascii) : bool := code c =? 46.

Definition is_upper (c : ascii) : bool :=
  between 65 90 c || (between 192 222 c && negb (code c =? 215)).

Definition lower_char (c : ascii) : ascii :=
  if is_upper c then ascii_of_nat (code c + 32) else c.

(** [s.lower()]. *)
Fixpoint lower (s : string) : string :=
  match s with
  | EmptyString => EmptyString
  | String c s' => String (lower_char c) (lower s')
  end.

Fixpoint lstrip (p : ascii -> bool) (s : string) : string :=
  match s with
  | EmptyString => EmptyString
  | String c s' => if p c then lstrip p s' else s
  end.

Fixpoint rstrip (p : ascii -> bool) (s : string) : string :=
  match s with
  | EmptyString => EmptyString
  | String c s' =>
      match rstrip p s' with
      | EmptyString => if p c then EmptyString else String c EmptyString
      | r => String c r
      end
  end.

(** [s.strip(chars)], the set [chars] given as a predicate. *)
Definition strip_chars (p : ascii -> bool) (s : string) : string :=
  rstrip p (lstrip p s).

(** [s.strip()]. *)
Definition strip (s : string) : string := strip_chars is_space s.

(** [s.split(".")]: never empty, [""] splits into [[""]]. *)
Fixpoint split_dot (s : string) : list string :=
  match s with
  | EmptyString => [EmptyString]
  | String c s' =>
      if is_dot c then EmptyString :: split_dot s'
      else match split_dot s' with
           | h :: t => String c h :: t
           | [] => [String c EmptyString]
           end
  end.

(** [l[-n:]]. *)
Definition last_n {A : Type} (n : nat) (l : list A) : list A :=
  skipn (List.length l - n) l.

(** Number of characters of [s] satisfying [p]: [len(re.findall(p, s))]
    for a one-character pattern. *)
Fixpoint count (p : ascii -> bool) (s : string) : nat :=
  match s with
  | EmptyString => 0
  | String c s' => (if p c then 1 else 0) + count p s'
  end.

(** [pat in s]. *)
Fixpoint contains (pat s : string) : bool :=
  match s with
  | EmptyString => prefix pat EmptyString
  | String _ s' => prefix pat s || contains pat s'
  end.

Definition is_empty (s : string) : bool :=
  match s with EmptyString => true | _ => false end.

End Str.

(** ** Cells, series and frames *)

Inductive value : Type :=
| VNaN                    (* a missing field *)
| VStr (s : string)       (* text *)
| VTime (iso : string)    (* a timestamp, held as the text pandas prints for it *)
| VNaT.                   (* the null timestamp *)

Definition Series := list value.

(** [str(v)], as [astype(str)] applies it to each cell. *)
Definition to_str (v : value) : string :=
  match v with
  | VNaN => "nan"
  | VStr s => s
  | VTime iso => iso
  | VNaT => "NaT"
  end.

Definition astype_str (s : Series) : list string := map to_str s.

Definition value_eqb (a b : value) : bool :=
  match a, b with
  | VNaN, VNaN => true
  | VStr x, VStr y => String.eqb x y
  | VTime x, VTime y => String.eqb x y
  | VNaT, VNaT => true
  | _, _ => false
  end.

Definition notna (v : value) : bool :=
  match v with
  | VNaN | VNaT => false
  | _ => true
  end.

Record DataFrame : Type := mkDF {
  columns : list string;
  rows : list (list value)
}.

Definition mem (c : string) (l : list string) : bool := existsb (String.eqb c) l.

(** [c in df.columns]. *)
Definition has_column (df : DataFrame) (c : string) : bool := mem c (columns df).

Fixpoint index_of (c : string) (l : list string) : option nat :=
  match l with
  | [] => None
  | x :: l' => if String.eqb c x then Some 0
               else match index_of c l' with
                    | Some i => Some (S i)
                    | None => None
                    end
  end.

Definition cell (i : nat) (r : list value) : value := nth i r VNaN.

(** [df[c]] for a column name [c]. *)
Definition getcol (df : DataFrame) (c : string) : result Series :=
  match index_of c (columns df) with
  | Some i => Ok (map (cell i) (rows df))
  | None => Raise (KeyError c)
  end.

(** [df.empty]: no rows or no columns. *)
Definition empty (df : DataFrame) : bool :=
  match rows df, columns df with
  | [], _ => true
  | _, [] => true
  | _, _ => false
  end.

(** What stands between the brackets of [df[...]] when it is not a column
    name: a boolean Series, or a bare boolean. *)
Inductive indexer : Type :=
| IMask (m : list bool)
| IScalar (b : bool).

Fixpoint select {A : Type} (m : list bool) (l : list A) : list A :=
  match m, l with
  | b :: m', x :: l' => if b then x :: select m' l' else select m' l'
  | _, _ => []
  end.

Definition repr_bool (b : bool) : string := if b then "True" else "False".

(** [df[key]] for such a key.  A boolean Series keeps the rows it marks; a
    bare boolean is not a row mask but a column label, and no column of a
    frame loaded from JSON has a boolean for a name. *)
Definition getitem (df : DataFrame) (key : indexer) : result DataFrame :=
  match key with
  | IMask m => Ok (mkDF (columns df) (select m (rows df)))
  | IScalar b => Raise (KeyError (repr_bool b))
  end.

Fixpoint upd (i : nat) (v : value) (r : list value) : list value :=
  match i, r with
  | 0, [] => [v]
  | 0, _ :: r' => v :: r'
  | S i', [] => VNaN :: upd i' v []
  | S i', x :: r' => x :: upd i' v r'
  end.

Fixpoint zip_with {A B C : Type} (f : A -> B -> C) (l : list A) (l' : list B) : list C :=
  match l, l' with
  | a :: t, b :: t' => f a b :: zip_with f t t'
  | _, _ => []
  end.

(** [df[c] = s]: overwrite the column in place, or append it. *)
Definition setcol (df : DataFrame) (c : string) (s : Series) : DataFrame :=
  match index_of c (columns df) with
  | Some i => mkDF (columns df) (zip_with (upd i) s (rows df))
  | None => mkDF (columns df ++ [c])
                 (zip_with (upd (List.length (columns df))) s (rows df))
  end.

(** The first name of [candidates] that is a column of [df]. *)
Fixpoint first_present (df : DataFrame) (candidates : list string) : option string :=
  match candidates with
  | [] => None
  | c :: rest => if has_column df c then Some c else first_present df rest
  end.

(** ** Source classifier *)

Definition possible_dns_cols : list string :=
  ["query"; "query_name"; "domain"; "dest_dns"; "dns_query"].

(** [s.astype(str).str.contains(pat, na=False)]. *)
Definition str_contains (pat : string) (s : Series) : list bool :=
  map (Str.contains pat) (astype_str s).

(** [s.astype(str).str.contains(pat, case=False, na=False)] for a lower-case
    pattern. *)
Definition str_contains_nocase (pat : string) (s : Series) : list bool :=
  map (fun x => Str.contains pat (Str.lower x)) (astype_str s).

(** Lines 48 to 52: the Windows mask is a boolean Series when the frame has
    a [source] or a [sourcetype] column, and else remains the [False] it was
    initialised with. *)
Definition is_win (df : DataFrame) : result indexer :=
  if has_column df "source" then
    s <- getcol df "source" ;; Ok (IMask (str_contains "WinEventLog" s))
  else if has_column df "sourcetype" then
    s <- getcol df "sourcetype" ;; Ok (IMask (str_contains "WinEventLog" s))
  else Ok (IScalar false).

(** Lines 57 to 65: the DNS mask is a boolean Series under the same
    condition, and else the one boolean [isin(possible_dns_cols).any()] of the
    column names. *)
Definition is_dns (df : DataFrame) : result indexer :=
  if has_column df "sourcetype" then
    s <- getcol df "sourcetype" ;; Ok (IMask (str_contains_nocase "dns" s))
  else if has_column df "source" then
    s <- getcol df "source" ;; Ok (IMask (str_contains_nocase "dns" s))
  else Ok (IScalar (existsb (fun c => mem c possible_dns_cols) (columns df))).

(** [win_df = df[is_win].copy()] on line 54, then [dns_df = df[is_dns].copy()]
    on line 67; the copies share nothing with [df]. *)
Definition split_logs (df : DataFrame) : result (DataFrame * DataFrame) :=
  w <- is_win df ;;
  win_df <- getitem df w ;;
  d <- is_dns df ;;
  dns_df <- getitem df d ;;
  Ok (win_df, dns_df).

(** ** Counting and ranking *)

(** One row of a result table with the columns [type], [key], [count]. *)
Record RankedEntry : Type := mkRow {
  type : string;
  key : string;
  count : nat
}.

(** [pd.DataFrame(columns=["type", "key", "count"])] and every table the
    scorers return: the three columns are fixed, the rows vary. *)
Definition Ranking := list RankedEntry.

Section Counting.
Context {A : Type} (eqb : A -> A -> bool).

Fixpoint tally_add (x : A) (t : list (A * nat)) : list (A * nat) :=
  match t with
  | [] => [(x, 1)]
  | (y, n) :: t' => if eqb x y then (y, S n) :: t' else (y, n) :: tally_add x t'
  end.

(** Occurrences of each distinct element, in order of first appearance. *)
Definition tally (l : list A) : list (A * nat) :=
  fold_left (fun t x => tally_add x t) l [].
End Counting.

Section Sorting.
Context {A : Type} (cnt : A -> nat).

Fixpoint insert_desc (x : A) (l : list A) : list A :=
  match l with
  | [] => [x]
  | y :: l' => if cnt y <=? cnt x then x :: l else y :: insert_desc x l'
  end.

(** [sort_values(ascending=False)] on the column [cnt]. *)
Fixpoint sort_desc (l : list A) : list A :=
  match l with
  | [] => []
  | x :: l' => insert_desc x (sort_desc l')
  end.
End Sorting.

(** [s.value_counts()] for a series whose elements are compared by [eqb]. *)
Definition value_counts_by {A : Type} (eqb : A -> A -> bool) (l : list A) : list (A * nat) :=
  sort_desc snd (tally eqb l).

(** [s.value_counts()] on cells: missing cells are dropped. *)
Definition value_counts (s : Series) : list (value * nat) :=
  value_counts_by value_eqb (filter notna s).

(** [.head(n)]. *)
Definition head {A : Type} (n : nat) (l : list A) : list A := firstn n l.

(** ** Windows rule scorer *)

Definition event_cols : list string :=
  ["EventCode"; "signature_id"; "EventID"; "event_id"].

Definition suspicious_ids : list (string * string) :=
  [ ("4625", "Failed logon (4625)");
    ("4624", "Successful logon (4624) - check anomalies");
    ("4648", "Logon with explicit creds (4648)");
    ("4672", "Special privileges assigned (4672)");
    ("4720", "User account created (4720)");
    ("4722", "User enabled (4722)");
    ("4723", "Password change attempt (4723)");
    ("4724", "Password reset attempt (4724)");
    ("4728", "Added to privileged group (4728)");
    ("4732", "Added to local group (4732)");
    ("4756", "Added to universal group (4756)");
    ("4688", "Process created (4688)");
    ("4697", "Service installed (4697)");
    ("7045", "Service created (7045)");
    ("4698", "Scheduled task created (4698)");
    ("4699", "Scheduled task deleted (4699)");
    ("1102", "Audit log cleared (1102)");
    ("4719", "Audit policy changed (4719)");
    ("4703", "User right adjusted (4703)") ].

(** [d.keys()]. *)
Definition dict_keys (d : list (string * string)) : list string := map fst d.

(** [d.get(k, default)]. *)
Fixpoint dict_get (d : list (string * string)) (k default : string) : string :=
  match d with
  | [] => default
  | (k', v) :: d' => if String.eqb k k' then v else dict_get d' k default
  end.

(** [s.isin(keys)] for a collection of strings. *)
Definition isin (keys : list string) (s : Series) : list bool :=
  map (fun v => match v with VStr x => mem x keys | _ => false end) s.

(** The column names of [s.value_counts().head(10).reset_index()] for a
    series named [name]: the values under the name of the series, the counts
    under "count". *)
Definition reset_index_columns (name : string) : list string := [name; "count"].

(** [.rename(columns=m)]: a name that [m] does not map is kept. *)
Definition rename_columns (m : list (string * string)) (cols : list string) : list string :=
  map (fun c => dict_get m c c) cols.

(** [df[c] = scalar], on the column names. *)
Definition add_column (c : string) (cols : list string) : list string :=
  if mem c cols then cols else cols ++ [c].

(** [repr] of a list of names. *)
Definition repr_names (l : list string) : string :=
  ("[" ++ String.concat ", " (map (fun c => "'" ++ c ++ "'") l) ++ "]")%string.

(** [df[want]] for a list of names, on the column names: every name must be
    a column. *)
Definition check_columns (want cols : list string) : result unit :=
  match filter (fun c => negb (mem c cols)) want with
  | [] => Ok tt
  | missing => Raise (KeyError (repr_names missing ++ " not in index"))
  end.

(** The scorer writes into the frame it is given (line 84), so the model
    returns, next to the ranking, the frame as the caller finds it after the
    call.  The counted cells are text since line 84: [to_str] is [str(x)] on
    line 131 and leaves the keys of the frequency table as they are.  The
    frequency table of lines 116 to 124 is renamed by name (line 121) and
    read by name (line 124). *)
Definition suspicious_wineventlog (win_df : DataFrame) : result (Ranking * DataFrame) :=
  match first_present win_df event_cols with
  | None => Ok ([], win_df)
  | Some event_col =>
      if empty win_df then Ok ([], win_df)
      else
        s <- getcol win_df event_col ;;
        let win_df := setcol win_df event_col (map VStr (astype_str s)) in
        ids <- getcol win_df event_col ;;
        flagged <- getitem win_df (IMask (isin (dict_keys suspicious_ids) ids)) ;;
        if empty flagged then
          ids <- getcol win_df event_col ;;
          let top := head 10 (value_counts ids) in
          let cols := add_column "type"
                        (rename_columns [("index", "key"); (event_col, "count")]
                                        (reset_index_columns event_col)) in
          selected <- check_columns ["type"; "key"; "count"] cols ;;
          Ok (map (fun kc => mkRow "WinEventLog (top by frequency)" (to_str (fst kc)) (snd kc)) top,
              win_df)
        else
          ids <- getcol flagged event_col ;;
          let cnt := value_counts ids in
          Ok (map (fun kc =>
                     mkRow "WinEventLog"
                           (dict_get suspicious_ids (to_str (fst kc)) (to_str (fst kc)))
                           (snd kc)) cnt,
              win_df)
  end.

(** ** DNS heuristic scorer *)

Definition extract_domain (q : value) : string :=
  match q with
  | VStr q =>
      if Str.is_empty q then ""
      else
        let q := Str.lower (Str.strip_chars Str.is_dot q) in
        let parts := Str.split_dot q in
        if List.length parts <=? 2 then q
        else String.concat "." (Str.last_n 2 parts)
  | _ => ""
  end.

(** A backtracking matcher for the fragment of [re] the query pattern uses:
    character classes, sequence and greedy bounded or unbounded repetition. *)
Module Re.

Inductive regex : Type :=
| Cls (p : ascii -> bool)
| Seq (r1 r2 : regex)
| Rep (r : regex) (lo : nat) (hi : option nat).

Section Match.
Context {A : Type}.

Definition matcher : Type := string -> (string -> option A) -> option A.

(** Up to [extra] further iterations, as many as possible first. *)
Fixpoint rep_opt (m : matcher) (extra : nat) (s : string) (k : string -> option A)
  : option A :=
  match extra with
  | 0 => k s
  | S e =>
      match m s (fun s' => rep_opt m e s' k) with
      | Some x => Some x
      | None => k s
      end
  end.

Fixpoint rep_req (m : matcher) (lo extra : nat) (s : string) (k : string -> option A)
  : option A :=
  match lo with
  | 0 => rep_opt m extra s k
  | S l => m s (fun s' => rep_req m l extra s' k)
  end.

(** Every iteration of the repetitions in use consumes a character, so
    an unbounded one iterates at most [length s] times. *)
Fixpoint run (r : regex) (s : string) (k : string -> option A) : option A :=
  match r with
  | Cls p =>
      match s with
      | String c s' => if p c then k s' else None
      | EmptyString => None
      end
  | Seq r1 r2 => run r1 s (fun s' => run r2 s' k)
  | Rep r lo hi =>
      rep_req (run r) lo
              (match hi with Some h => h - lo | None => String.length s end) s k
  end.
End Match.

(** [re.search(r, s).group(0)]: the leftmost match, [None] without one. *)
Fixpoint search (r : regex) (s : string) : option string :=
  match run r s (fun rest => Some rest) with
  | Some rest => Some (substring 0 (String.length s - String.length rest) s)
  | None =>
      match s with
      | EmptyString => None
      | String _ s' => search r s'
      end
  end.

End Re.

(** [[a-zA-Z0-9\-]{1,63}]. *)
Definition label : Re.regex := Re.Rep (Re.Cls Str.is_label_char) 1 (Some 63).

(** [([a-zA-Z0-9\-]{1,63}(?:\.[a-zA-Z0-9\-]{1,63})+\.[a-zA-Z]{2,})]. *)
Definition domain_like : Re.regex :=
  Re.Seq label
    (Re.Seq (Re.Rep (Re.Seq (Re.Cls Str.is_dot) label) 1 None)
       (Re.Seq (Re.Cls Str.is_dot) (Re.Rep (Re.Cls Str.is_alpha) 2 None))).

(** [s.str.extract(domain_like).fillna(s).str.strip().str.lower()], one
    element at a time. *)
Definition qname_of (s : string) : string :=
  Str.lower (Str.strip (match Re.search domain_like s with
                        | Some m => m
                        | None => s
                        end)).

(** A row of [dns_work]: the record and the five columns derived from it. *)
Record DnsRow : Type := mkDns {
  record : list value;
  qname : string;
  domain : string;
  qname_len : nat;
  dots : nat;
  digits : nat
}.

Definition dns_row (r : list value) (q : string) : DnsRow :=
  {| record := r;
     qname := q;
     domain := extract_domain (VStr q);
     qname_len := String.length q;
     dots := Str.count Str.is_dot q;
     digits := Str.count Str.is_digit q |}.

Definition query_cols : list string :=
  ["query"; "query_name"; "dns_query"; "dest_dns"; "Domain"; "domain"; "QueryName"].

Definition raw_cols : list string := ["Message"; "_raw"; "body"].

Definition query_col (dns_df : DataFrame) : option string :=
  match first_present dns_df query_cols with
  | Some c => Some c
  | None => first_present dns_df raw_cols
  end.

Definition dns_work (dns_df : DataFrame) (s : list string) : list DnsRow :=
  zip_with dns_row (rows dns_df) (map qname_of s).

(** The mask of line 187. *)
Definition is_suspicious_q (w : DnsRow) : bool :=
  (40 <=? qname_len w) || (5 <=? dots w) || (10 <=? digits w).

Definition suspicious_q (work : list DnsRow) : list DnsRow :=
  filter is_suspicious_q work.

Definition rare_domains (work : list DnsRow) : list string :=
  map fst (filter (fun dc => snd dc <=? 2)
                  (value_counts_by String.eqb (map domain work))).

Definition tag (t : string) (kc : string * nat) : RankedEntry :=
  mkRow t (fst kc) (snd kc).

Definition suspicious_dns (dns_df : DataFrame) : result Ranking :=
  if empty dns_df then Ok []
  else
    match query_col dns_df with
    | None => Ok []
    | Some c =>
        col <- getcol dns_df c ;;
        let s := astype_str col in
        let work := dns_work dns_df s in
        let rare_hits := filter (fun w => mem (domain w) (rare_domains work)) work in
        let rare_top := head 10 (value_counts_by String.eqb (map domain rare_hits)) in
        let weird_top := head 10 (value_counts_by String.eqb (map qname (suspicious_q work))) in
        Ok (map (tag "DNS (rare domains)") rare_top
            ++ map (tag "DNS (weird subdomains)") weird_top)
    end.

(** ** Aggregator *)

Definition group_key (r : RankedEntry) : string * string := (type r, key r).

Definition group_eqb (a b : string * string) : bool :=
  String.eqb (fst a) (fst b) && String.eqb (snd a) (snd b).

(** Order of the group keys: by [type], then by [key]. *)
Definition group_leb (a b : string * string) : bool :=
  match String.compare (fst a) (fst b) with
  | Lt => true
  | Eq => String.leb (snd a) (snd b)
  | Gt => false
  end.

Fixpoint sum_add (k : string * string) (n : nat) (t : list (string * string * nat))
  : list (string * string * nat) :=
  match t with
  | [] => [(k, n)]
  | (k', m) :: t' => if group_eqb k k' then (k', m + n) :: t' else (k', m) :: sum_add k n t'
  end.

Fixpoint insert_group (x : string * string * nat) (l : list (string * string * nat))
  : list (string * string * nat) :=
  match l with
  | [] => [x]
  | y :: l' => if group_leb (fst x) (fst y) then x :: l else y :: insert_group x l'
  end.

(** The running sums of the groups after the rows of [l], from the sums [t]. *)
Definition groups (l : Ranking) (t : list (string * string * nat))
  : list (string * string * nat) :=
  fold_left (fun t r => sum_add (group_key r) (count r) t) l t.

Definition group_row (g : string * string * nat) : RankedEntry :=
  mkRow (fst (fst g)) (snd (fst g)) (snd g).

(** [groupby(["type", "key"], as_index=False)["count"].sum()]: one row per
    pair, the pairs in ascending order. *)
Definition groupby_sum (l : Ranking) : Ranking :=
  map group_row (fold_right insert_group [] (groups l [])).

(** Lines 244 to 248 of [main]. *)
Definition combined_top (win_susp dns_susp : Ranking) : Ranking :=
  sort_desc count (groupby_sum (win_susp ++ dns_susp)).

(** ** Field normalizer *)

Section Normalizer.

(** [parse col x]: the timestamp that [pd.to_datetime(col, errors="coerce")]
    reads in the text [x] of the column [col], [None] where it reads none. *)
Variable parse : Series -> string -> option string.

Definition to_datetime (s : Series) : Series :=
  map (fun v => match v with
                | VStr x => match parse s x with
                            | Some t => VTime t
                            | None => VNaT
                            end
                | VNaN => VNaT
                | VTime t => VTime t
                | VNaT => VNaT
                end) s.

(** The frame is updated in place and returned. *)
Definition normalize_time (df : DataFrame) : result DataFrame :=
  if has_column df "_time" then
    s <- getcol df "_time" ;;
    Ok (setcol df "_time" (to_datetime s))
  else Ok df.

End Normalizer.

(** ** Record loader *)

(** A parsed JSON value.  An object is the list of its members in document
    order, their names distinct. *)
#[local] Unset Elimination Schemes.
Inductive json : Type :=
| JStr (s : string)
| JAtom                                   (* null, a number, true or false *)
| JList (l : list json)
| JDict (members : list (string * json)).
#[local] Set Elimination Schemes.

(** [d.get(k)]. *)
Fixpoint member (k : string) (d : list (string * json)) : option json :=
  match d with
  | [] => None
  | (k', v) :: d' => if String.eqb k k' then Some v else member k d'
  end.

(** The loop of [load_botsv1_json] (lines 21 to 30) over the entries of a
    document that is a JSON array: the object under [result] when there is
    one, else the entry itself when it is an object, else nothing. *)
Fixpoint load_rows (raw : list json) : list (list (string * json)) :=
  match raw with
  | [] => []
  | item :: rest =>
      match item with
      | JDict d =>
          match member "result" d with
          | Some (JDict r) => r :: load_rows rest
          | _ => d :: load_rows rest
          end
      | _ => load_rows rest
      end
  end.

(** A record all of whose fields are text, the names distinct. *)
Definition fields : Type := list (string * string).

Definition json_of_fields (r : fields) : list (string * json) :=
  map (fun kv => (fst kv, JStr (snd kv))) r.

Fixpoint get_field (c : string) (r : fields) : option string :=
  match r with
  | [] => None
  | (k, v) :: r' => if String.eqb c k then Some v else get_field c r'
  end.

(** The names of [r] that [cols] lacks, appended in the order of [r]. *)
Definition add_columns (cols : list string) (r : fields) : list string :=
  fold_left (fun cols kv => if mem (fst kv) cols then cols else cols ++ [fst kv]) r cols.

Definition cell_of (r : fields) (c : string) : value :=
  match get_field c r with
  | Some v => VStr v
  | None => VNaN
  end.

(** [pd.DataFrame(rows)] on line 32, for rows of text fields: the columns
    are the field names in order of first appearance, and a record without
    a field has a missing cell there. *)
Definition DataFrame_of_records (recs : list fields) : DataFrame :=
  let cols := fold_left add_columns recs [] in
  mkDF cols (map (fun r => map (cell_of r) cols) recs).

(** ** Charts and driver *)

(** The table that [plot_top10] draws (lines 220 to 223), [None] when it
    draws nothing. *)
Definition plot_top10 (df : Ranking) : option Ranking :=
  match df with
  | [] => None
  | _ => Some (head 10 (sort_desc count df))
  end.

(** [combined_top.assign(key=combined_top["type"] + " | " + combined_top["key"])]. *)
Definition assign_key (r : RankedEntry) : RankedEntry :=
  mkRow (type r) (type r ++ " | " ++ key r)%string (count r).

(** What a run writes: the three tables of [save_tables] and the three
    charts. *)
Record Report : Type := mkReport {
  win_susp : Ranking;
  dns_susp : Ranking;
  combined : Ranking;
  win_chart : option Ranking;
  dns_chart : option Ranking;
  combined_chart : option Ranking
}.

Section Driver.

(** The reader of timestamps, as for [normalize_time]. *)
Variable parse : Series -> string -> option string.

(** [main] from line 236 on, given the frame that the loader returns. *)
Definition main (df : DataFrame) : result Report :=
  df <- normalize_time parse df ;;
  split <- split_logs df ;;
  scored <- suspicious_wineventlog (fst split) ;;
  dns <- suspicious_dns (snd split) ;;
  let win := fst scored in
  let both := combined_top win dns in
  Ok (mkReport win dns both
               (plot_top10 win) (plot_top10 dns) (plot_top10 (map assign_key both))).

End Driver.

(** * Vocabulary of the properties *)

(** Order-preserving sub-sequences. *)
Inductive Subseq {A : Type} : list A -> list A -> Prop :=
| Subseq_nil : Subseq [] []
| Subseq_keep x l l' : Subseq l l' -> Subseq (x :: l) (x :: l')
| Subseq_skip x l l' : Subseq l l' -> Subseq l (x :: l').

(** The count recorded for [x] in a tally, [0] when there is none. *)
Fixpoint tget {A : Type} (eqb : A -> A -> bool) (x : A) (t : list (A * nat)) : nat :=
  match t with
  | [] => 0
  | (y, n) :: t' => if eqb x y then n else tget eqb x t'
  end.

(** A tally names each element once and counts no element zero times. *)
Definition tally_ok {A : Type} (t : list (A * nat)) : Prop :=
  NoDup (map fst t) /\ Forall (fun kc => 0 < snd kc) t.

(** [a] may stand before [b] in a table sorted by [cnt], descending. *)
Definition desc {A : Type} (cnt : A -> nat) (a b : A) : Prop := cnt b <= cnt a.

(** A counted text as a counted cell. *)
Definition lift (kc : string * nat) : value * nat := (VStr (fst kc), snd kc).

(** [x] is a key of the catalog. *)
Definition known (x : string) : bool := mem x (dict_keys suspicious_ids).

(** The text of the identifier column, as line 84 writes it back. *)
Definition id_text (df : DataFrame) (i : nat) : list string :=
  astype_str (map (cell i) (rows df)).

(** The frame after line 84, the identifier column being column [i]. *)
Definition coerced (df : DataFrame) (i : nat) : DataFrame :=
  mkDF (columns df) (zip_with (upd i) (map VStr (id_text df i)) (rows df)).

Definition label_row (kc : string * nat) : RankedEntry :=
  mkRow "WinEventLog" (dict_get suspicious_ids (fst kc) (fst kc)) (snd kc).

(** The sum recorded for a group, [0] when there is none. *)
Fixpoint sget (k : string * string) (t : list (string * string * nat)) : nat :=
  match t with
  | [] => 0
  | (k', m) :: t' => if group_eqb k k' then m else sget k t'
  end.

(** Sum of the counts of the rows of [l] in the group [k]. *)
Definition group_total (k : string * string) (l : Ranking) : nat :=
  list_sum (map count (filter (fun r => group_eqb (group_key r) k) l)).

(** The column that the Windows detection reads, and the one that the DNS
    detection reads. *)
Definition win_col (df : DataFrame) : string :=
  if has_column df "source" then "source" else "sourcetype".

Definition dns_col (df : DataFrame) : string :=
  if has_column df "sourcetype" then "sourcetype" else "source".

Definition is_win_text (x : string) : bool := Str.contains "WinEventLog" x.

Definition is_dns_text (x : string) : bool := Str.contains "dns" (Str.lower x).

(** A timestamp or the null timestamp. *)
Definition is_time (v : value) : bool :=
  match v with
  | VTime _ | VNaT => true
  | _ => false
  end.

(** The sum of the counts of a table. *)
Definition total (l : Ranking) : nat := list_sum (map count l).

(** An entry that wraps the record [r] under [result], next to the members
    [sib]. *)
Definition wrapped (sib : list (string * json)) (r : list (string * json)) : json :=
  JDict (sib ++ [("result", JDict r)]).

(** The subset has records and an identifier column, and no identifier in
    it is a catalog key: the scorer takes the branch of lines 115 to 124. *)
Definition falls_back (df : DataFrame) : bool :=
  match first_present df event_cols with
  | Some c =>
      match index_of c (columns df) with
      | Some i => negb (empty df) && negb (existsb known (id_text df i))
      | None => false
      end
  | None => false
  end.

(** Every character of [s] satisfies [p]. *)
Fixpoint all_chars (p : ascii -> bool) (s : string) : bool :=
  match s with
  | EmptyString => true
  | String c s' => p c && all_chars p s'
  end.

(** A string that does not end with a character that [p] strips. *)
Fixpoint clean_last (p : ascii -> bool) (s : string) : bool :=
  match s with
  | EmptyString => true
  | String c s' =>
      match s' with
      | EmptyString => negb (p c)
      | _ => clean_last p s'
      end
  end.

(** An ASCII character. *)
Definition is_ascii (c : ascii) : bool := Str.code c <? 128.

(** A JSON object. *)
Definition is_object (j : json) : bool :=
  match j with
  | JDict _ => true
  | _ => false
  end.

(** The entry [item] is an object that holds the object [r] under [result]. *)
Definition wraps (item : json) (r : list (string * json)) : Prop :=
  exists d, item = JDict d /\ member "result" d = Some (JDict r).

(** The tags of the two DNS tables. *)
Definition rare_tag : string := "DNS (rare domains)".

Definition weird_tag : string := "DNS (weird subdomains)".

(** The records whose domain is rare (line 200). *)
Definition rare_hits (work : list DnsRow) : list DnsRow :=
  filter (fun w => mem (domain w) (rare_domains work)) work.

(** A string that does not begin with a character that [p] strips. *)
Definition clean_head (p : ascii -> bool) (s : string) : bool :=
  match s with
  | EmptyString => true
  | String c _ => negb (p c)
  end.

(** Every character class of [r] treats a letter and its lower case alike. *)
Fixpoint case_blind (r : Re.regex) : Prop :=
  match r with
  | Re.Cls p => forall c, p (Str.lower_char c) = p c
  | Re.Seq r1 r2 => case_blind r1 /\ case_blind r2
  | Re.Rep r _ _ => case_blind r
  end.

(** A matcher that, on the lower case of a string, does in lower case what
    it does on the string. *)
Definition lowers (m : @Re.matcher string) : Prop :=
  forall s k k',
    (forall t, k' (Str.lower t) = option_map Str.lower (k t)) ->
    m (Str.lower s) k' = option_map Str.lower (m s k).

(** The order of the group keys as a three-way comparison. *)
Definition group_cmp (a b : string * string) : comparison :=
  match String.compare (fst a) (fst b) with
  | Eq => String.compare (snd a) (snd b)
  | c => c
  end.

(** [x] may stand before [y] in a table sorted by group key. *)
Definition entry_le (x y : string * string * nat) : Prop :=
  group_leb (fst x) (fst y) = true.

(** A row as a group with its sum. *)
Definition entry_of (r : RankedEntry) : string * string * nat := (group_key r, count r).

(** ** Sample inputs *)

(** DNS records that carry neither [source] nor [sourcetype]. *)
Definition query_only_df : DataFrame :=
  mkDF ["query"; "src_ip"]
       [[VStr "www.example.com"; VStr "10.0.0.1"];
        [VStr "mail.example.org"; VStr "10.0.0.2"]].

Definition win_4625_4688 : DataFrame :=
  mkDF ["source"; "EventCode"]
       (map (fun x => [VStr "WinEventLog:Security"; VStr x])
            ["4688"; "4625"; "4625"; "4688"; "4625"; "4625"; "4688"; "4625"]).

Definition win_9999_8888 : DataFrame :=
  mkDF ["source"; "EventID"]
       (map (fun x => [VStr "WinEventLog:Application"; VStr x])
            ["8888"; "9999"; "9999"; "9999"; "9999"; "8888"; "9999"; "9999"; "9999"]).

(** A Windows subset whose second record has no [EventCode]. *)
Definition win_missing_id : DataFrame :=
  mkDF ["source"; "EventCode"]
       [[VStr "WinEventLog:Security"; VStr "4625"];
        [VStr "WinEventLog:System"; VNaN]].

Definition dns_deep_name : DataFrame :=
  mkDF ["sourcetype"; "query"]
       [[VStr "stream:dns"; VStr "a.b.c.d.e.f.example.com"];
        [VStr "stream:dns"; VStr "www.example.com"]].

(** A reader of timestamps for the sample run: ten characters of date. *)
Definition parse_date (_ : Series) (x : string) : option string :=
  if String.length x =? 10 then Some x else None.

Definition timed_df : DataFrame :=
  mkDF ["_time"; "source"]
       [[VStr "2016-08-24"; VStr "WinEventLog:Security"];
        [VStr "yesterday"; VStr "stream:dns"];
        [VNaN; VStr "stream:dns"]].

(** Records of both kinds, of neither, and one that both detections take. *)
Definition mixed_df : DataFrame :=
  mkDF ["source"; "sourcetype"; "EventCode"; "query"]
       [[VStr "WinEventLog:Security"; VStr "WinEventLog:Security"; VStr "4625"; VNaN];
        [VStr "stream:dns"; VStr "stream:DNS"; VNaN; VStr "www.example.com"];
        [VStr "WinEventLog:System"; VStr "dnsmasq"; VStr "7045"; VNaN];
        [VStr "/var/log/syslog"; VStr "syslog"; VNaN; VNaN]].

(** Queries to a domain met three times, one met twice and one met once. *)
Definition dns_three_domains : DataFrame :=
  mkDF ["sourcetype"; "query"]
       (map (fun q => [VStr "stream:dns"; VStr q])
            ["www.example.com"; "mail.example.com"; "a.b.x.org"; "ftp.example.com";
             "c.x.org"; "y.net"]).

(** * Properties *)

(** ** Frames *)

Lemma mem_In (c : string) (l : list string) : mem c l = true <-> In c l.
Proof.
  unfold mem. rewrite existsb_exists. split.
  - intros [x [Hin Heq]]. apply String.eqb_eq in Heq. now subst.
  - intros Hin. exists c. split; [assumption | apply String.eqb_refl].
Qed.

Lemma index_of_mem (c : string) (l : list string) :
  mem c l = true -> exists i, index_of c l = Some i /\ i < List.length l.
Proof.
  induction l as [| x l IH]; simpl; [discriminate |].
  destruct (String.eqb c x); simpl.
  - intros _. exists 0. split; [reflexivity | lia].
  - intros H. destruct (IH H) as [i [Hi Hlt]]. rewrite Hi.
    exists (S i). split; [reflexivity | lia].
Qed.

Lemma index_of_not_mem (c : string) (l : list string) :
  mem c l = false -> index_of c l = None.
Proof.
  induction l as [| x l IH]; simpl; [reflexivity |].
  destruct (String.eqb c x); simpl; [discriminate |].
  intros H. now rewrite (IH H).
Qed.

Lemma index_of_inj (c c' : string) (l : list string) (i : nat) :
  index_of c l = Some i -> index_of c' l = Some i -> c = c'.
Proof.
  revert i. induction l as [| x l IH]; simpl; [discriminate |].
  intros i. destruct (String.eqb_spec c x), (String.eqb_spec c' x);
    try congruence.
  - destruct (index_of c' l); intros H1 H2; congruence.
  - destruct (index_of c l); intros H1 H2; congruence.
  - destruct (index_of c l) as [a |] eqn:E1, (index_of c' l) as [b |] eqn:E2;
      try discriminate.
    intros H1 H2. apply (IH a); congruence.
Qed.

Lemma getcol_present (df : DataFrame) (c : string) :
  has_column df c = true ->
  exists i, index_of c (columns df) = Some i /\
            getcol df c = Ok (map (cell i) (rows df)).
Proof.
  intros H. destruct (index_of_mem _ _ H) as [i [Hi _]].
  exists i. unfold getcol. now rewrite Hi.
Qed.

Lemma first_present_In (df : DataFrame) (l : list string) (c : string) :
  first_present df l = Some c -> In c l /\ has_column df c = true.
Proof.
  induction l as [| x l IH]; simpl; [discriminate |].
  destruct (has_column df x) eqn:E.
  - intros [= <-]. auto.
  - intros H. destruct (IH H). auto.
Qed.

Lemma cell_upd_same (i : nat) (v : value) (r : list value) : cell i (upd i v r) = v.
Proof.
  unfold cell. revert r. induction i as [| i IH]; intros [| x r]; simpl; auto.
Qed.

Lemma cell_nil (j : nat) : cell j [] = VNaN.
Proof. unfold cell. now destruct j. Qed.

Lemma cell_upd_other (i j : nat) (v : value) (r : list value) :
  i <> j -> cell j (upd i v r) = cell j r.
Proof.
  unfold cell. revert j r.
  induction i as [| i IH]; intros [| j] [| x r] Hne; simpl;
    try reflexivity; try contradiction.
  - now destruct j.
  - rewrite (IH j []) by lia. now destruct j.
  - apply (IH j r). lia.
Qed.


Lemma zip_with_length {A B C : Type} (f : A -> B -> C) (l : list A) (l' : list B) :
  List.length l = List.length l' -> List.length (zip_with f l l') = List.length l'.
Proof.
  revert l'. induction l as [| a l IH]; intros [| b l']; simpl; try discriminate; auto.
Qed.

Lemma map_cell_zip_upd (i : nat) (s : Series) (rs : list (list value)) :
  List.length s = List.length rs -> map (cell i) (zip_with (upd i) s rs) = s.
Proof.
  revert rs. induction s as [| v s IH]; intros [| r rs]; simpl; try discriminate; auto.
  intros [= H]. now rewrite cell_upd_same, IH.
Qed.

Lemma map_cell_zip_upd_other (i j : nat) (s : Series) (rs : list (list value)) :
  i <> j -> List.length s = List.length rs ->
  map (cell j) (zip_with (upd i) s rs) = map (cell j) rs.
Proof.
  intros Hne. revert rs.
  induction s as [| v s IH]; intros [| r rs]; simpl; try discriminate; auto.
  intros [= H]. now rewrite cell_upd_other, IH.
Qed.


Lemma setcol_present (df : DataFrame) (c : string) (i : nat) (s : Series) :
  index_of c (columns df) = Some i ->
  setcol df c s = mkDF (columns df) (zip_with (upd i) s (rows df)).
Proof. intros H. unfold setcol. now rewrite H. Qed.

Lemma select_map {A B : Type} (f : A -> B) (m : list bool) (l : list A) :
  map f (select m l) = select m (map f l).
Proof.
  revert l. induction m as [| b m IH]; intros [| x l]; simpl; auto.
  destruct b; simpl; now rewrite IH.
Qed.

Lemma select_filter {A : Type} (f : A -> bool) (l : list A) :
  select (map f l) l = filter f l.
Proof.
  induction l as [| x l IH]; simpl; auto. destruct (f x); now rewrite IH.
Qed.

Lemma select_map_filter {A B : Type} (f : A -> bool) (g : A -> B) (l : list A) :
  select (map f l) (map g l) = map g (filter f l).
Proof.
  induction l as [| x l IH]; simpl; auto. destruct (f x); simpl; now rewrite IH.
Qed.

Lemma Subseq_nil_l {A : Type} (l : list A) : Subseq [] l.
Proof. induction l; constructor; auto. Qed.

Lemma select_Subseq {A : Type} (m : list bool) (l : list A) : Subseq (select m l) l.
Proof.
  revert l. induction m as [| b m IH]; intros [| x l]; simpl;
    try apply Subseq_nil_l.
  destruct b; constructor; apply IH.
Qed.

(** ** Source classifier *)

Lemma is_win_mask (df : DataFrame) :
  has_column df "source" || has_column df "sourcetype" = true ->
  exists m, is_win df = Ok (IMask m).
Proof.
  unfold is_win. intros H.
  destruct (has_column df "source") eqn:E1.
  - destruct (getcol_present _ _ E1) as [i [_ ->]]. simpl. eauto.
  - simpl in H. rewrite H.
    destruct (getcol_present _ _ H) as [i [_ ->]]. simpl. eauto.
Qed.

Lemma is_dns_mask (df : DataFrame) :
  has_column df "source" || has_column df "sourcetype" = true ->
  exists m, is_dns df = Ok (IMask m).
Proof.
  unfold is_dns. intros H.
  destruct (has_column df "sourcetype") eqn:E1.
  - destruct (getcol_present _ _ E1) as [i [_ ->]]. simpl. eauto.
  - rewrite orb_false_r in H. rewrite H.
    destruct (getcol_present _ _ H) as [i [_ ->]]. simpl. eauto.
Qed.

(** With a [source] or a [sourcetype] column the classifier returns, and
    both subsets are sub-sequences of the input with the input's columns. *)
Lemma split_logs_with_signal (df : DataFrame) :
  has_column df "source" || has_column df "sourcetype" = true ->
  exists win_df dns_df,
    split_logs df = Ok (win_df, dns_df) /\
    columns win_df = columns df /\ columns dns_df = columns df /\
    Subseq (rows win_df) (rows df) /\ Subseq (rows dns_df) (rows df).
Proof.
  intros H. unfold split_logs.
  destruct (is_win_mask df H) as [m ->], (is_dns_mask df H) as [m' ->]. simpl.
  eexists _, _. split; [reflexivity |]. simpl.
  repeat split; apply select_Subseq.
Qed.

Lemma split_logs_empty_subset (cols : list string) :
  mem "source" cols || mem "sourcetype" cols = true ->
  split_logs (mkDF cols []) = Ok (mkDF cols [], mkDF cols []).
Proof.
  intros H.
  destruct (split_logs_with_signal (mkDF cols []) H)
    as (w & d & -> & Hw & Hd & Sw & Sd).
  destruct w as [cw rw], d as [cd rd]. simpl in *. subst.
  inversion Sw; inversion Sd; subst. reflexivity.
Qed.

(** The loader turns an empty document into a frame without rows and
    without columns; on it the classifier raises. *)
Example split_logs_no_records :
  split_logs (mkDF [] []) = Raise (KeyError "False").
Proof. reflexivity. Qed.

(** C2 (the classifier without a typing column).  For every input that has
    neither a [source] nor a [sourcetype] column, rows or no rows, the
    classifier raises [KeyError] on line 54 instead of returning two
    sub-sequences of the input. *)
Theorem split_logs_without_signal_raises (df : DataFrame) :
  has_column df "source" = false ->
  has_column df "sourcetype" = false ->
  split_logs df = Raise (KeyError "False").
Proof.
  intros H1 H2. unfold split_logs, is_win. now rewrite H1, H2.
Qed.

Lemma split_logs_without_signal_raises_witness :
  has_column query_only_df "source" = false /\
  has_column query_only_df "sourcetype" = false /\
  split_logs query_only_df = Raise (KeyError "False").
Proof.
  split; [reflexivity | split; [reflexivity |]].
  apply split_logs_without_signal_raises; reflexivity.
Defined.

(** C6 (the field-name fallback of the DNS detection).  Without a [source]
    and a [sourcetype] column the DNS detection does compute one boolean for
    the whole set, true exactly when a column name is one of the five DNS
    field names; but that boolean is then used as the key of [df[...]], which
    raises [KeyError] whatever its value, and the classifier has raised
    before reaching it: the DNS subset is neither the whole input nor
    empty. *)
Theorem dns_fallback_raises (df : DataFrame) :
  has_column df "sourcetype" = false ->
  has_column df "source" = false ->
  exists b : bool,
    is_dns df = Ok (IScalar b) /\
    (b = true <-> exists c, In c (columns df) /\ In c possible_dns_cols) /\
    getitem df (IScalar b) = Raise (KeyError (repr_bool b)) /\
    raises (split_logs df).
Proof.
  intros H1 H2.
  exists (existsb (fun c => mem c possible_dns_cols) (columns df)).
  split; [unfold is_dns; now rewrite H1, H2 |].
  split; [| split; [reflexivity |]].
  - rewrite existsb_exists. split.
    + intros [c [Hc Hm]]. exists c. split; [assumption | now apply mem_In].
    + intros [c [Hc Hm]]. exists c. split; [assumption | now apply mem_In].
  - exists (KeyError "False"). unfold split_logs, is_win. now rewrite H2, H1.
Qed.

Lemma dns_fallback_raises_witness :
  has_column query_only_df "sourcetype" = false /\
  has_column query_only_df "source" = false /\
  is_dns query_only_df = Ok (IScalar true) /\
  getitem query_only_df (IScalar true) = Raise (KeyError "True") /\
  raises (split_logs query_only_df).
Proof.
  split; [reflexivity | split; [reflexivity |]].
  destruct (dns_fallback_raises query_only_df eq_refl eq_refl)
    as (b & Hb & _ & Hg & Hr).
  assert (b = true) as -> by (vm_compute in Hb; congruence).
  repeat split; assumption.
Defined.

(** ** Counting and sorting *)

Section CountingFacts.
Context {A : Type} (eqb : A -> A -> bool).
Context (eq_dec : forall x y : A, {x = y} + {x <> y}).
Hypothesis eqb_eq : forall x y, eqb x y = true <-> x = y.

Lemma eqb_refl x : eqb x x = true.
Proof. now apply eqb_eq. Qed.

Lemma eqb_neq x y : x <> y -> eqb x y = false.
Proof.
  intros H. destruct (eqb x y) eqn:E; [| reflexivity].
  apply eqb_eq in E. contradiction.
Qed.

Lemma tally_add_keys x t :
  forall k, In k (map fst (tally_add eqb x t)) <-> k = x \/ In k (map fst t).
Proof.
  induction t as [| [y n] t IH]; simpl; intros k.
  - intuition.
  - destruct (eqb x y) eqn:E; simpl.
    + apply eqb_eq in E. subst. intuition.
    + rewrite IH. intuition.
Qed.

Lemma tally_add_ok x t : tally_ok t -> tally_ok (tally_add eqb x t).
Proof.
  unfold tally_ok. induction t as [| [y n] t IH]; simpl; intros [Hnd Hpos].
  - split; repeat constructor; auto.
  - inversion Hnd as [| ? ? Hnotin Hnd']; subst.
    inversion Hpos as [| ? ? Hn Hpos']; subst.
    destruct (eqb x y) eqn:E; simpl.
    + split; constructor; simpl in *; auto; lia.
    + destruct (IH (conj Hnd' Hpos')) as [IH1 IH2].
      split; constructor; simpl; auto.
      rewrite tally_add_keys. intros [-> | Hin]; [| contradiction].
      rewrite eqb_refl in E. discriminate.
Qed.

Lemma tget_tally_add x y t :
  tget eqb y (tally_add eqb x t) = (if eqb y x then 1 else 0) + tget eqb y t.
Proof.
  induction t as [| [z n] t IH]; simpl.
  - destruct (eqb y x); reflexivity.
  - destruct (eqb x z) eqn:E; simpl.
    + apply eqb_eq in E. subst. destruct (eqb y z); reflexivity.
    + destruct (eqb y z) eqn:E'; simpl; [| apply IH].
      apply eqb_eq in E'. subst.
      destruct (eqb z x) eqn:E''; [| reflexivity].
      apply eqb_eq in E''. subst. rewrite eqb_refl in E. discriminate.
Qed.

Lemma fold_tally_ok l : forall t,
  tally_ok t -> tally_ok (fold_left (fun t x => tally_add eqb x t) l t).
Proof.
  induction l as [| x l IH]; simpl; intros t Ht; auto using tally_add_ok.
Qed.

Lemma tget_fold_tally y l : forall t,
  tget eqb y (fold_left (fun t x => tally_add eqb x t) l t) = count_occ eq_dec l y + tget eqb y t.
Proof.
  induction l as [| x l IH]; simpl; intros t; [reflexivity |].
  rewrite IH, tget_tally_add.
  destruct (eq_dec x y) as [-> | Hne].
  - rewrite eqb_refl. lia.
  - rewrite eqb_neq by congruence. lia.
Qed.

Lemma tget_In k n t : NoDup (map fst t) -> In (k, n) t -> tget eqb k t = n.
Proof.
  induction t as [| [y m] t IH]; simpl; intros Hnd Hin; [contradiction |].
  inversion Hnd as [| ? ? Hnotin Hnd']; subst.
  destruct Hin as [[= -> ->] | Hin].
  - now rewrite eqb_refl.
  - destruct (eqb k y) eqn:E; [| auto].
    apply eqb_eq in E. subst. exfalso. apply Hnotin.
    change y with (fst (y, n)). now apply in_map.
Qed.

Lemma In_tget k t : 0 < tget eqb k t -> In (k, tget eqb k t) t.
Proof.
  induction t as [| [y m] t IH]; simpl; [lia |].
  destruct (eqb k y) eqn:E; auto.
  apply eqb_eq in E. subst. auto.
Qed.

Lemma tally_ok_tally l : tally_ok (tally eqb l).
Proof. apply fold_tally_ok. split; constructor. Qed.

(** A tally holds, for each element that occurs, its number of
    occurrences, once. *)
Lemma tally_spec l k n :
  In (k, n) (tally eqb l) <-> n = count_occ eq_dec l k /\ 0 < n.
Proof.
  pose proof (tally_ok_tally l) as [Hnd Hpos].
  pose proof (tget_fold_tally k l []) as Hget. simpl in Hget.
  fold (tally eqb l) in Hget. rewrite Nat.add_0_r in Hget.
  split.
  - intros Hin. split.
    + rewrite <- Hget. symmetry. now apply tget_In.
    + rewrite Forall_forall in Hpos. apply (Hpos _ Hin).
  - intros [-> Hn]. rewrite <- Hget in *. now apply In_tget.
Qed.
End CountingFacts.

Lemma In_firstn {A : Type} (n : nat) (l : list A) (x : A) : In x (firstn n l) -> In x l.
Proof.
  intros H. rewrite <- (firstn_skipn n l). apply in_or_app. now left.
Qed.

Lemma In_skipn {A : Type} (n : nat) (l : list A) (x : A) : In x (skipn n l) -> In x l.
Proof.
  intros H. rewrite <- (firstn_skipn n l). apply in_or_app. now right.
Qed.

Section SortingFacts.
Context {A : Type} (cnt : A -> nat).

Lemma insert_desc_perm x l : Permutation (insert_desc cnt x l) (x :: l).
Proof.
  induction l as [| y l IH]; simpl; [reflexivity |].
  destruct (cnt y <=? cnt x); [reflexivity |].
  rewrite IH. apply perm_swap.
Qed.

Lemma sort_desc_perm l : Permutation (sort_desc cnt l) l.
Proof.
  induction l as [| x l IH]; simpl; [reflexivity |].
  rewrite insert_desc_perm. now constructor.
Qed.

Lemma insert_desc_sorted x l :
  StronglySorted (desc cnt) l -> StronglySorted (desc cnt) (insert_desc cnt x l).
Proof.
  induction l as [| y l IH]; simpl; intros Hs.
  - repeat constructor.
  - inversion Hs as [| ? ? Hs' Hall]; subst.
    destruct (Nat.leb_spec (cnt y) (cnt x)) as [Hle | Hlt].
    + constructor; [assumption |]. constructor; [exact Hle |].
      rewrite Forall_forall in *. intros z Hz. unfold desc in *.
      specialize (Hall z Hz). lia.
    + constructor; [auto |].
      rewrite Forall_forall in *. intros z Hz.
      apply (Permutation_in _ (insert_desc_perm x l)) in Hz.
      destruct Hz as [<- | Hz]; [unfold desc; lia | auto].
Qed.

Lemma sort_desc_sorted l : StronglySorted (desc cnt) (sort_desc cnt l).
Proof.
  induction l as [| x l IH]; simpl; [constructor |].
  now apply insert_desc_sorted.
Qed.

Lemma sorted_firstn n l : StronglySorted (desc cnt) l -> StronglySorted (desc cnt) (firstn n l).
Proof.
  revert l. induction n as [| n IH]; intros [| x l] Hs; simpl; try constructor.
  - inversion Hs; subst. auto.
  - inversion Hs as [| ? ? _ Hall]; subst.
    rewrite Forall_forall in *. intros z Hz. apply Hall.
    now apply (In_firstn n l).
Qed.

(** What [head n] leaves out of a sorted table counts no more than what
    it keeps. *)
Lemma sorted_firstn_top n l x y :
  StronglySorted (desc cnt) l -> In x (firstn n l) -> In y (skipn n l) -> cnt y <= cnt x.
Proof.
  revert l. induction n as [| n IH]; intros [| z l] Hs Hx Hy; simpl in *;
    try contradiction.
  inversion Hs as [| ? ? Hs' Hall]; subst.
  destruct Hx as [<- | Hx].
  - rewrite Forall_forall in Hall. apply Hall.
    now apply (In_skipn n l).
  - eauto.
Qed.
End SortingFacts.

(** ** Counting text cells *)

Lemma tally_add_lift (x : string) (t : list (string * nat)) :
  tally_add value_eqb (VStr x) (map lift t) = map lift (tally_add String.eqb x t).
Proof.
  induction t as [| [y n] t IH]; simpl; [reflexivity |].
  destruct (String.eqb x y); simpl; [reflexivity | now rewrite IH].
Qed.

Lemma tally_lift (l : list string) :
  tally value_eqb (map VStr l) = map lift (tally String.eqb l).
Proof.
  unfold tally. change (@nil (value * nat)) with (map lift []).
  generalize (@nil (string * nat)) as t.
  induction l as [| x l IH]; simpl; intros t; [reflexivity |].
  now rewrite tally_add_lift, IH.
Qed.

Lemma sort_desc_lift (l : list (string * nat)) :
  sort_desc snd (map lift l) = map lift (sort_desc snd l).
Proof.
  induction l as [| x l IH]; simpl; [reflexivity |].
  rewrite IH. generalize (sort_desc snd l) as t.
  induction t as [| y t IHt]; simpl; [reflexivity |].
  destruct (snd y <=? snd x); simpl; [reflexivity | now rewrite IHt].
Qed.

Lemma filter_notna_text (l : list string) : filter notna (map VStr l) = map VStr l.
Proof. induction l as [| x l IH]; simpl; [reflexivity | now rewrite IH]. Qed.

Lemma value_counts_text (l : list string) :
  value_counts (map VStr l) = map lift (value_counts_by String.eqb l).
Proof.
  unfold value_counts, value_counts_by.
  now rewrite filter_notna_text, tally_lift, sort_desc_lift.
Qed.

Lemma isin_text (keys l : list string) :
  isin keys (map VStr l) = map (fun x => mem x keys) l.
Proof. unfold isin. now rewrite map_map. Qed.

Lemma select_nil {A B : Type} (f : A -> bool) (l : list A) (rs : list B) :
  List.length l = List.length rs ->
  select (map f l) rs = [] <-> existsb f l = false.
Proof.
  revert rs. induction l as [| x l IH]; intros [| r rs]; simpl; try discriminate.
  - intuition.
  - intros [= H]. destruct (f x); simpl; [split; discriminate | now apply IH].
Qed.

(** ** Windows rule scorer *)

Lemma id_text_length (df : DataFrame) (i : nat) :
  List.length (map VStr (id_text df i)) = List.length (rows df).
Proof. unfold id_text, astype_str. now rewrite !length_map. Qed.

(** The scorer on a non-empty frame with an identifier column: the catalog
    table and the frame it leaves, or the [KeyError] of line 124. *)
Lemma suspicious_wineventlog_run (df : DataFrame) (c : string) (i : nat) :
  first_present df event_cols = Some c ->
  empty df = false ->
  index_of c (columns df) = Some i ->
  suspicious_wineventlog df =
    if existsb known (id_text df i)
    then Ok (map label_row (value_counts_by String.eqb (filter known (id_text df i))),
             coerced df i)
    else Raise (KeyError "['key'] not in index").
Proof.
  intros Hc He Hi. unfold suspicious_wineventlog. rewrite Hc, He.
  unfold getcol at 1. rewrite Hi. cbn [bind].
  rewrite (setcol_present _ _ _ _ Hi). fold (id_text df i). fold (coerced df i).
  assert (Hcol : getcol (coerced df i) c = Ok (map VStr (id_text df i))).
  { unfold getcol. cbn [columns coerced rows]. rewrite Hi.
    now rewrite map_cell_zip_upd by apply id_text_length. }
  rewrite Hcol. cbn [bind getitem].
  rewrite isin_text. fold known.
  assert (Hemp : empty (mkDF (columns (coerced df i))
                             (select (map known (id_text df i)) (rows (coerced df i))))
                 = negb (existsb known (id_text df i))).
  { unfold empty. cbn [columns rows coerced].
    destruct (columns df) as [| c0 cs] eqn:Ecols; [discriminate |].
    assert (Hlen : List.length (id_text df i)
                   = List.length (zip_with (upd i) (map VStr (id_text df i)) (rows df))).
    { rewrite zip_with_length by apply id_text_length.
      unfold id_text, astype_str. now rewrite !length_map. }
    pose proof (select_nil known _ _ Hlen) as Hsel.
    destruct (existsb known (id_text df i)) eqn:Ex; simpl.
    - destruct (select _ _) eqn:Es; [| reflexivity].
      destruct Hsel as [Hsel _]. discriminate (Hsel eq_refl).
    - now rewrite (proj2 Hsel eq_refl). }
  rewrite Hemp. destruct (existsb known (id_text df i)); cbn [negb].
  - unfold getcol. cbn [columns rows coerced]. rewrite Hi. cbn [bind].
    rewrite select_map, map_cell_zip_upd by apply id_text_length.
    rewrite select_map_filter, value_counts_text, map_map. reflexivity.
  - destruct (first_present_In _ _ _ Hc) as [Hin _]. simpl in Hin.
    destruct Hin as [<- | [<- | [<- | [<- | []]]]]; reflexivity.
Qed.

(** ** What [value_counts] returns *)

Section ValueCountsFacts.
Context {A : Type} (eqb : A -> A -> bool).
Context (eq_dec : forall x y : A, {x = y} + {x <> y}).
Hypothesis eqb_eq : forall x y, eqb x y = true <-> x = y.

Lemma value_counts_In l k n :
  In (k, n) (value_counts_by eqb l) <-> n = count_occ eq_dec l k /\ 0 < n.
Proof.
  unfold value_counts_by. rewrite <- (tally_spec eqb eq_dec eqb_eq).
  split; apply Permutation_in;
    [apply sort_desc_perm | symmetry; apply sort_desc_perm].
Qed.

Lemma value_counts_NoDup l : NoDup (map fst (value_counts_by eqb l)).
Proof.
  unfold value_counts_by.
  apply (Permutation_NoDup (l := map fst (tally eqb l))).
  - apply Permutation_map. symmetry. apply sort_desc_perm.
  - apply (tally_ok_tally eqb eqb_eq).
Qed.

Lemma value_counts_sorted l : StronglySorted (desc snd) (value_counts_by eqb l).
Proof. apply sort_desc_sorted. Qed.

Lemma value_counts_key_In l k n : In (k, n) (value_counts_by eqb l) -> In k l.
Proof.
  intros H. apply value_counts_In in H. destruct H as [-> Hn].
  now apply (count_occ_In eq_dec).
Qed.

(** Two distinct values with different numbers of occurrences, and
    nothing else: the more frequent one comes first. *)
Lemma value_counts_two l a b n m :
  a <> b -> m < n -> 0 < m ->
  count_occ eq_dec l a = n -> count_occ eq_dec l b = m ->
  (forall x, In x l -> x = a \/ x = b) ->
  value_counts_by eqb l = [(a, n); (b, m)].
Proof.
  intros Hab Hmn Hm Ha Hb Hall.
  pose proof (value_counts_NoDup l) as Hnd.
  pose proof (value_counts_sorted l) as Hs.
  assert (Hina : In (a, n) (value_counts_by eqb l))
    by (apply value_counts_In; split; [congruence | lia]).
  assert (Hinb : In (b, m) (value_counts_by eqb l))
    by (apply value_counts_In; split; [congruence | lia]).
  assert (Hel : forall kc, In kc (value_counts_by eqb l) -> kc = (a, n) \/ kc = (b, m)).
  { intros [k c] Hin. pose proof (value_counts_key_In _ _ _ Hin) as Hk.
    apply value_counts_In in Hin. destruct Hin as [-> _].
    destruct (Hall _ Hk) as [-> | ->]; [left | right]; congruence. }
  destruct (value_counts_by eqb l) as [| x [| y [| z t]]].
  - contradiction.
  - destruct Hina as [-> | []], Hinb as [E | []]. congruence.
  - inversion Hnd as [| ? ? Hnotin _]; subst. simpl in Hnotin.
    inversion Hs as [| ? ? _ Hfor]; subst.
    inversion Hfor as [| ? ? Hxy _]; subst. unfold desc in Hxy.
    destruct (Hel x (or_introl eq_refl)) as [-> | ->],
             (Hel y (or_intror (or_introl eq_refl))) as [-> | ->];
      simpl in *; try reflexivity; try lia; exfalso; apply Hnotin; auto.
  - exfalso.
    inversion Hnd as [| ? ? Hn1 Hnd']; subst.
    inversion Hnd' as [| ? ? Hn2 _]; subst. simpl in Hn1, Hn2.
    destruct (Hel x (or_introl eq_refl)) as [-> | ->],
             (Hel y (or_intror (or_introl eq_refl))) as [-> | ->],
             (Hel z (or_intror (or_intror (or_introl eq_refl)))) as [-> | ->];
      simpl in *; intuition.
Qed.
End ValueCountsFacts.

Lemma getcol_Ok (df : DataFrame) (c : string) (col : Series) :
  getcol df c = Ok col ->
  exists i, index_of c (columns df) = Some i /\ col = map (cell i) (rows df).
Proof.
  unfold getcol. destruct (index_of c (columns df)) as [i |]; [| discriminate].
  intros [= <-]. eauto.
Qed.

Lemma filter_all {A : Type} (f : A -> bool) (l : list A) :
  Forall (fun x => f x = true) l -> filter f l = l.
Proof.
  induction 1 as [| x l Hx _ IH]; simpl; [reflexivity |]. now rewrite Hx, IH.
Qed.

Lemma existsb_In {A : Type} (f : A -> bool) (l : list A) (x : A) :
  In x l -> f x = true -> existsb f l = true.
Proof. intros Hin Hf. apply existsb_exists. eauto. Qed.

Lemma not_empty (df : DataFrame) (c : string) (i : nat) :
  index_of c (columns df) = Some i -> rows df <> [] -> empty df = false.
Proof.
  unfold empty. intros Hi Hr.
  destruct (rows df); [contradiction |].
  destruct (columns df); [discriminate | reflexivity].
Qed.

(** C3.  A Windows subset whose identifier column holds "4625" five times
    and "4688" three times, in any order and next to any other columns, is
    scored as exactly the two rows ("WinEventLog", "Failed logon (4625)", 5)
    and ("WinEventLog", "Process created (4688)", 3), in that order. *)
Theorem catalog_ranking_4625_4688 (df : DataFrame) (c : string) (col : Series) :
  first_present df event_cols = Some c ->
  getcol df c = Ok col ->
  Permutation (astype_str col) (repeat "4625" 5 ++ repeat "4688" 3) ->
  exists df',
    suspicious_wineventlog df =
      Ok ([mkRow "WinEventLog" "Failed logon (4625)" 5;
           mkRow "WinEventLog" "Process created (4688)" 3], df').
Proof.
  intros Hc Hcol Hperm.
  destruct (getcol_Ok _ _ _ Hcol) as [i [Hi ->]]. fold (id_text df i) in Hperm.
  assert (He : empty df = false).
  { apply (not_empty df c i Hi). intros Hr.
    apply Permutation_length in Hperm. unfold id_text in Hperm.
    rewrite Hr in Hperm. discriminate. }
  exists (coerced df i). rewrite (suspicious_wineventlog_run df c i Hc He Hi).
  assert (Hall : forall x, In x (id_text df i) -> x = "4625" \/ x = "4688").
  { intros x Hx. apply (Permutation_in _ Hperm) in Hx. simpl in Hx. intuition. }
  assert (Hex : existsb known (id_text df i) = true).
  { apply (existsb_In _ _ "4625"); [| reflexivity].
    apply (Permutation_in _ (Permutation_sym Hperm)). simpl. auto. }
  assert (Hfil : filter known (id_text df i) = id_text df i).
  { apply filter_all. apply Forall_forall. intros x Hx.
    destruct (Hall x Hx) as [-> | ->]; reflexivity. }
  rewrite Hex, Hfil.
  rewrite (value_counts_two String.eqb string_dec String.eqb_eq
             (id_text df i) "4625" "4688" 5 3); try reflexivity; try lia;
    try discriminate; try assumption.
  - rewrite (proj1 (Permutation_count_occ string_dec _ _) Hperm). reflexivity.
  - rewrite (proj1 (Permutation_count_occ string_dec _ _) Hperm). reflexivity.
Qed.

Lemma win_4625_4688_ids :
  Permutation ["4688"; "4625"; "4625"; "4688"; "4625"; "4625"; "4688"; "4625"]
              (repeat "4625" 5 ++ repeat "4688" 3).
Proof.
  apply (proj2 (Permutation_count_occ string_dec _ _)). intros x.
  destruct (string_dec "4625" x) as [<- | N1]; [reflexivity |].
  destruct (string_dec "4688" x) as [<- | N2]; [reflexivity |].
  cbn [repeat app]. now rewrite !count_occ_cons_neq by assumption.
Qed.

Lemma catalog_ranking_4625_4688_witness :
  first_present win_4625_4688 event_cols = Some "EventCode" /\
  exists df',
    suspicious_wineventlog win_4625_4688 =
      Ok ([mkRow "WinEventLog" "Failed logon (4625)" 5;
           mkRow "WinEventLog" "Process created (4688)" 3], df').
Proof.
  split; [reflexivity |].
  apply (catalog_ranking_4625_4688 win_4625_4688 "EventCode"
           (map VStr ["4688"; "4625"; "4625"; "4688"; "4625"; "4625"; "4688"; "4625"]));
    [reflexivity | reflexivity | exact win_4625_4688_ids].
Defined.

Lemma NoDup_firstn {A : Type} (n : nat) (l : list A) : NoDup l -> NoDup (firstn n l).
Proof.
  intros H. rewrite <- (firstn_skipn n l) in H. now apply NoDup_app_remove_r in H.
Qed.

Lemma sorted_map {A B : Type} (f : A -> B) (cnt : A -> nat) (cnt' : B -> nat) (l : list A) :
  (forall x, cnt' (f x) = cnt x) ->
  StronglySorted (desc cnt) l -> StronglySorted (desc cnt') (map f l).
Proof.
  intros Hf. induction 1 as [| x l _ IH Hall]; simpl; constructor; auto.
  rewrite Forall_forall in *. intros y Hy. apply in_map_iff in Hy.
  destruct Hy as [z [<- Hz]]. unfold desc. rewrite !Hf. now apply Hall.
Qed.

(** C4.  On a Windows subset with records whose identifier column holds no
    catalog key, the scorer does not return the ten most frequent raw
    identifiers: the frequency table of line 116 has its values under the
    name of the identifier column and its counts under "count", the rename
    of line 121 turns both names into "count", and reading the columns
    "type", "key" and "count" on line 124 raises [KeyError], there being no
    "key". *)
Theorem top_frequency_fallback_raises (df : DataFrame) (c : string) (col : Series) :
  first_present df event_cols = Some c ->
  getcol df c = Ok col ->
  col <> [] ->
  (forall x, In x (astype_str col) -> known x = false) ->
  add_column "type"
    (rename_columns [("index", "key"); (c, "count")] (reset_index_columns c))
  = ["count"; "count"; "type"] /\
  suspicious_wineventlog df = Raise (KeyError "['key'] not in index").
Proof.
  intros Hc Hcol Hne Hnone.
  destruct (getcol_Ok _ _ _ Hcol) as [i [Hi ->]]. fold (id_text df i) in Hnone.
  split.
  { destruct (first_present_In _ _ _ Hc) as [Hin _]. simpl in Hin.
    destruct Hin as [<- | [<- | [<- | [<- | []]]]]; reflexivity. }
  assert (He : empty df = false).
  { apply (not_empty df c i Hi). intros Hr. apply Hne. now rewrite Hr. }
  rewrite (suspicious_wineventlog_run df c i Hc He Hi).
  destruct (existsb known (id_text df i)) eqn:Ex; [| reflexivity].
  apply existsb_exists in Ex. destruct Ex as [x [Hx Hk]].
  rewrite (Hnone x Hx) in Hk. discriminate.
Qed.

Lemma top_frequency_fallback_raises_witness :
  first_present win_9999_8888 event_cols = Some "EventID" /\
  getcol win_9999_8888 "EventID"
  = Ok (map VStr ["8888"; "9999"; "9999"; "9999"; "9999"; "8888"; "9999"; "9999"; "9999"]) /\
  suspicious_wineventlog win_9999_8888 = Raise (KeyError "['key'] not in index").
Proof.
  split; [reflexivity | split; [reflexivity |]].
  apply (top_frequency_fallback_raises win_9999_8888 "EventID"
           (map VStr ["8888"; "9999"; "9999"; "9999"; "9999"; "8888"; "9999"; "9999"; "9999"])
           eq_refl eq_refl).
  - discriminate.
  - intros x Hx. simpl in Hx.
    repeat (destruct Hx as [<- | Hx]; [reflexivity |]). contradiction.
Defined.

Lemma map_text_id (col : Series) :
  Forall (fun v => exists s, v = VStr s) col -> map VStr (astype_str col) = col.
Proof.
  induction 1 as [| v col [s ->] _ IH]; simpl; [reflexivity |]. now rewrite IH.
Qed.

Lemma getcol_empty_text (df : DataFrame) (c : string) (col : Series) :
  rows df = [] -> getcol df c = Ok col ->
  getcol df c = Ok (map VStr (astype_str col)) /\
  (Forall (fun v => exists s, v = VStr s) col -> getcol df c = Ok col).
Proof.
  intros Hr Hcol. destruct (getcol_Ok _ _ _ Hcol) as [i [_ ->]].
  rewrite Hr in *. auto.
Qed.

(** When the scorer returns, the frame it was given has the same columns
    and, in every column but the identifier column, the same cells; on a
    subset with records the identifier column has been overwritten with the
    text of its cells. *)
Lemma suspicious_wineventlog_frame (df : DataFrame) (out : Ranking) (df' : DataFrame) :
  suspicious_wineventlog df = Ok (out, df') ->
  columns df' = columns df /\
  (forall c, first_present df event_cols <> Some c -> getcol df' c = getcol df c) /\
  (forall c col, first_present df event_cols = Some c -> getcol df c = Ok col ->
     getcol df' c = Ok (map VStr (astype_str col)) /\
     (Forall (fun v => exists s, v = VStr s) col -> getcol df' c = Ok col)).
Proof.
  intros Hrun.
  destruct (first_present df event_cols) as [c0 |] eqn:Hc.
  - destruct (empty df) eqn:He.
    + unfold suspicious_wineventlog in Hrun. rewrite Hc, He in Hrun.
      injection Hrun as _ <-.
      split; [reflexivity |]. split; [reflexivity |].
      intros c col [= <-] Hcol. eapply getcol_empty_text; eauto.
      apply first_present_In in Hc. destruct Hc as [_ Hc].
      unfold empty in He. destruct (rows df); [reflexivity |].
      unfold has_column in Hc. destruct (columns df); discriminate.
    + destruct (first_present_In _ _ _ Hc) as [_ Hhas].
      destruct (getcol_present _ _ Hhas) as [i [Hi Hget]].
      rewrite (suspicious_wineventlog_run df c0 i Hc He Hi) in Hrun.
      destruct (existsb known (id_text df i)); [| discriminate].
      injection Hrun as _ <-.
      split; [reflexivity |]. split.
      * intros c Hne. unfold getcol. cbn [columns rows coerced].
        destruct (index_of c (columns df)) as [j |] eqn:Hj; [| reflexivity].
        rewrite map_cell_zip_upd_other; [reflexivity | | apply id_text_length].
        intros ->. apply Hne. f_equal. apply (index_of_inj _ _ _ _ Hi Hj).
      * intros c col [= <-] Hcol. rewrite Hget in Hcol. injection Hcol as <-.
        assert (Hnew : getcol (coerced df i) c0 = Ok (map VStr (id_text df i))).
        { unfold getcol. cbn [columns rows coerced]. rewrite Hi.
          now rewrite map_cell_zip_upd by apply id_text_length. }
        split; [exact Hnew |].
        intros Htxt. rewrite Hnew. unfold id_text. now rewrite map_text_id.
  - unfold suspicious_wineventlog in Hrun. rewrite Hc in Hrun. injection Hrun as _ <-.
    split; [reflexivity |]. split; [reflexivity |]. discriminate.
Qed.

(** C9.  The scorer does not leave its input unchanged: line 84 assigns the
    text of the identifier column to the frame it was given, so on this
    subset the record without an identifier has one, the text "nan", when
    the scorer has returned. *)
Lemma suspicious_wineventlog_writes_input :
  exists out df',
    suspicious_wineventlog win_missing_id = Ok (out, df') /\
    getcol win_missing_id "EventCode" = Ok [VStr "4625"; VNaN] /\
    getcol df' "EventCode" = Ok [VStr "4625"; VStr "nan"] /\
    df' <> win_missing_id.
Proof.
  eexists _, _. split; [reflexivity |]. split; [reflexivity |].
  split; [reflexivity | discriminate].
Qed.

(** ** DNS heuristic scorer *)

Lemma zip_with_In {A B C : Type} (f : A -> B -> C) (l : list A) (l' : list B) (z : C) :
  In z (zip_with f l l') -> exists a b, In a l /\ In b l' /\ z = f a b.
Proof.
  revert l'. induction l as [| a l IH]; intros [| b l']; simpl; try contradiction.
  intros [<- | H].
  - exists a, b. auto.
  - destruct (IH _ H) as (a' & b' & Ha & Hb & ->). exists a', b'. auto.
Qed.

Lemma zip_with_map_r {A B C D : Type} (f : A -> B -> C) (g : C -> D) (h : B -> D)
      (l : list A) (l' : list B) :
  (forall a b, g (f a b) = h b) -> List.length l = List.length l' ->
  map g (zip_with f l l') = map h l'.
Proof.
  intros Hg. revert l'.
  induction l as [| a l IH]; intros [| b l']; simpl; try discriminate; auto.
  intros [= H]. now rewrite Hg, IH.
Qed.

Lemma dns_work_features (dns_df : DataFrame) (s : list string) (w : DnsRow) :
  In w (dns_work dns_df s) ->
  domain w = extract_domain (VStr (qname w)) /\
  qname_len w = String.length (qname w) /\
  dots w = Str.count Str.is_dot (qname w) /\
  digits w = Str.count Str.is_digit (qname w).
Proof.
  intros H. apply zip_with_In in H. destruct H as (r & q & _ & _ & ->).
  repeat split.
Qed.

Lemma is_suspicious_q_iff (w : DnsRow) :
  is_suspicious_q w = true <-> 40 <= qname_len w \/ 5 <= dots w \/ 10 <= digits w.
Proof.
  unfold is_suspicious_q. rewrite !orb_true_iff, !Nat.leb_le. tauto.
Qed.

(** C5.  On a non-empty DNS subset with a query column, the query name of
    each record is read from the text of that column, and a record is among
    the flagged ones exactly when its query name has at least 40
    characters, or at least 5 dots, or at least 10 digits; the "weird
    subdomains" rows of the result are the ten most frequent query names of
    the flagged records. *)
Theorem weird_subdomain_flag (dns_df : DataFrame) (c : string) (col : Series) :
  empty dns_df = false ->
  query_col dns_df = Some c ->
  getcol dns_df c = Ok col ->
  let work := dns_work dns_df (astype_str col) in
  map qname work = map qname_of (astype_str col) /\
  (forall w, In w work ->
     (In w (suspicious_q work) <->
      40 <= String.length (qname w) \/
      5 <= Str.count Str.is_dot (qname w) \/
      10 <= Str.count Str.is_digit (qname w))) /\
  exists rare,
    Forall (fun r => type r = "DNS (rare domains)") rare /\
    suspicious_dns dns_df =
      Ok (rare ++ map (tag "DNS (weird subdomains)")
                      (head 10 (value_counts_by String.eqb
                                  (map qname (suspicious_q work))))).
Proof.
  intros He Hq Hcol work. split; [| split].
  - destruct (getcol_Ok _ _ _ Hcol) as [i [_ ->]]. subst work. unfold dns_work.
    rewrite (zip_with_map_r dns_row qname (fun q => q)); [apply map_id | reflexivity |].
    unfold astype_str. now rewrite !length_map.
  - intros w Hw. unfold suspicious_q. rewrite filter_In, is_suspicious_q_iff.
    destruct (dns_work_features _ _ _ Hw) as (_ & -> & -> & ->). tauto.
  - unfold suspicious_dns. rewrite He, Hq, Hcol. cbn [bind]. fold work.
    eexists. split; [| reflexivity].
    apply Forall_forall. intros r Hr. apply in_map_iff in Hr.
    now destruct Hr as [kc [<- _]].
Qed.

Lemma weird_subdomain_flag_witness :
  empty dns_deep_name = false /\
  query_col dns_deep_name = Some "query" /\
  exists w,
    In w (suspicious_q (dns_work dns_deep_name ["a.b.c.d.e.f.example.com"; "www.example.com"])) /\
    qname w = "a.b.c.d.e.f.example.com" /\
    dots w = 7 /\
    domain w = "example.com".
Proof.
  split; [reflexivity | split; [reflexivity |]].
  destruct (weird_subdomain_flag dns_deep_name "query"
              [VStr "a.b.c.d.e.f.example.com"; VStr "www.example.com"]
              eq_refl eq_refl eq_refl) as (_ & Hflag & _).
  exists (dns_row [VStr "stream:dns"; VStr "a.b.c.d.e.f.example.com"]
                  "a.b.c.d.e.f.example.com").
  split; [| repeat split].
  apply Hflag; [left; reflexivity |]. right. left. vm_compute. lia.
Defined.

(** ** Aggregator *)

Lemma group_eqb_eq (a b : string * string) : group_eqb a b = true <-> a = b.
Proof.
  destruct a as [t k], b as [t' k']. unfold group_eqb. simpl.
  rewrite andb_true_iff, !String.eqb_eq. split; [intros []; congruence |].
  intros [= -> ->]. auto.
Qed.

Lemma group_eqb_refl (a : string * string) : group_eqb a a = true.
Proof. now apply group_eqb_eq. Qed.

Lemma sum_add_keys k n t k' :
  In k' (map fst (sum_add k n t)) <-> k' = k \/ In k' (map fst t).
Proof.
  induction t as [| [y m] t IH]; simpl.
  - intuition.
  - destruct (group_eqb k y) eqn:E; simpl.
    + apply group_eqb_eq in E. subst. intuition.
    + rewrite IH. intuition.
Qed.

Lemma sum_add_NoDup k n t : NoDup (map fst t) -> NoDup (map fst (sum_add k n t)).
Proof.
  induction t as [| [y m] t IH]; simpl; intros Hnd.
  - repeat constructor. auto.
  - inversion Hnd as [| ? ? Hnotin Hnd']; subst.
    destruct (group_eqb k y) eqn:E; simpl.
    + now constructor.
    + constructor; [| auto]. rewrite sum_add_keys. intros [-> | Hin]; [| contradiction].
      rewrite group_eqb_refl in E. discriminate.
Qed.

Lemma sget_sum_add k n t k' :
  sget k' (sum_add k n t) = (if group_eqb k k' then n else 0) + sget k' t.
Proof.
  induction t as [| [y m] t IH]; simpl.
  - destruct (group_eqb k' k) eqn:E, (group_eqb k k') eqn:E'; try lia.
    + apply group_eqb_eq in E. subst. rewrite group_eqb_refl in E'. discriminate.
    + apply group_eqb_eq in E'. subst. rewrite group_eqb_refl in E. discriminate.
  - destruct (group_eqb k y) eqn:E; simpl.
    + apply group_eqb_eq in E. subst.
      destruct (group_eqb k' y) eqn:E'.
      * apply group_eqb_eq in E'. subst. rewrite group_eqb_refl. lia.
      * destruct (group_eqb y k') eqn:E''; [| reflexivity].
        apply group_eqb_eq in E''. subst. rewrite group_eqb_refl in E'. discriminate.
    + destruct (group_eqb k' y) eqn:E'; [| apply IH].
      apply group_eqb_eq in E'. subst. now rewrite E.
Qed.

Lemma groups_NoDup l : forall t, NoDup (map fst t) -> NoDup (map fst (groups l t)).
Proof.
  induction l as [| r l IH]; simpl; intros t Ht; auto using sum_add_NoDup.
Qed.

Lemma groups_keys l k : forall t,
  In k (map fst (groups l t)) <-> In k (map group_key l) \/ In k (map fst t).
Proof.
  induction l as [| r l IH]; simpl; intros t; [tauto |].
  unfold groups in IH. rewrite IH, sum_add_keys. intuition.
Qed.

Lemma sget_groups l k : forall t, sget k (groups l t) = group_total k l + sget k t.
Proof.
  induction l as [| r l IH]; simpl; intros t; [reflexivity |].
  unfold groups in IH. rewrite IH, sget_sum_add. unfold group_total. simpl.
  destruct (group_eqb (group_key r) k); simpl; lia.
Qed.

Lemma sget_In k n t : NoDup (map fst t) -> In (k, n) t -> sget k t = n.
Proof.
  induction t as [| [y m] t IH]; simpl; intros Hnd Hin; [contradiction |].
  inversion Hnd as [| ? ? Hnotin Hnd']; subst.
  destruct Hin as [[= -> ->] | Hin].
  - now rewrite group_eqb_refl.
  - destruct (group_eqb k y) eqn:E; [| auto].
    apply group_eqb_eq in E. subst. exfalso. apply Hnotin.
    change y with (fst (y, n)). now apply in_map.
Qed.

Lemma insert_group_perm x l : Permutation (insert_group x l) (x :: l).
Proof.
  induction l as [| y l IH]; simpl; [reflexivity |].
  destruct (group_leb (fst x) (fst y)); [reflexivity |].
  rewrite IH. apply perm_swap.
Qed.

Lemma sort_groups_perm l : Permutation (fold_right insert_group [] l) l.
Proof.
  induction l as [| x l IH]; simpl; [reflexivity |].
  rewrite insert_group_perm. now constructor.
Qed.

Lemma combined_top_perm (win_susp dns_susp : Ranking) :
  Permutation (combined_top win_susp dns_susp)
              (map group_row (groups (win_susp ++ dns_susp) [])).
Proof.
  unfold combined_top, groupby_sum. rewrite sort_desc_perm.
  apply Permutation_map, sort_groups_perm.
Qed.

(** C7.  The combined table is sorted by count, descending; it has one row
    for each pair (type, key) of the rows of the two scorers, and no other;
    and the count of a row is the sum of the counts of the scorers' rows
    with its pair. *)
Theorem combined_top_groups (win_susp dns_susp : Ranking) :
  let out := combined_top win_susp dns_susp in
  StronglySorted (desc count) out /\
  NoDup (map group_key out) /\
  (forall k, In k (map group_key out) <-> In k (map group_key (win_susp ++ dns_susp))) /\
  (forall r, In r out -> count r = group_total (group_key r) (win_susp ++ dns_susp)).
Proof.
  intros out. pose proof (combined_top_perm win_susp dns_susp) as Hperm.
  fold out in Hperm. set (l := win_susp ++ dns_susp) in *.
  assert (Hkeys : map group_key (map group_row (groups l [])) = map fst (groups l [])).
  { rewrite map_map. apply map_ext. now intros [[t k] n]. }
  pose proof (groups_NoDup l [] (NoDup_nil _)) as Hnd.
  split; [apply sort_desc_sorted |]. split; [| split].
  - apply (Permutation_NoDup (l := map group_key (map group_row (groups l [])))).
    + apply Permutation_map. now symmetry.
    + now rewrite Hkeys.
  - intros k. pose proof (groups_keys l k []) as Hk. rewrite <- Hkeys in Hk.
    simpl in Hk. split.
    + intros H. apply (Permutation_in _ (Permutation_map group_key Hperm)) in H.
      apply Hk in H. tauto.
    + intros H.
      apply (Permutation_in _ (Permutation_map group_key (Permutation_sym Hperm))).
      apply Hk. now left.
  - intros r Hr. apply (Permutation_in _ Hperm) in Hr.
    apply in_map_iff in Hr. destruct Hr as [[[t k] n] [<- Hg]].
    unfold group_row, group_key. simpl.
    rewrite <- (sget_In _ _ _ Hnd Hg). rewrite sget_groups. simpl. lia.
Qed.

Lemma combined_top_groups_witness :
  combined_top [mkRow "WinEventLog" "X" 3]
               [mkRow "DNS (rare domains)" "Y" 2; mkRow "WinEventLog" "X" 1]
  = [mkRow "WinEventLog" "X" 4; mkRow "DNS (rare domains)" "Y" 2] /\
  forall r,
    In r (combined_top [mkRow "WinEventLog" "X" 3]
                       [mkRow "DNS (rare domains)" "Y" 2; mkRow "WinEventLog" "X" 1]) ->
    count r = group_total (group_key r)
                [mkRow "WinEventLog" "X" 3; mkRow "DNS (rare domains)" "Y" 2;
                 mkRow "WinEventLog" "X" 1].
Proof.
  split; [reflexivity |].
  apply (combined_top_groups [mkRow "WinEventLog" "X" 3]
           [mkRow "DNS (rare domains)" "Y" 2; mkRow "WinEventLog" "X" 1]).
Defined.

(** ** Field normalizer *)

Section NormalizerFacts.
Variable parse : Series -> string -> option string.

Lemma to_datetime_length (s : Series) :
  List.length (to_datetime parse s) = List.length s.
Proof. unfold to_datetime. apply length_map. Qed.



Lemma normalize_time_empty (cols : list string) :
  normalize_time parse (mkDF cols []) = Ok (mkDF cols []).
Proof.
  unfold normalize_time. destruct (has_column (mkDF cols []) "_time") eqn:Ht;
    [| reflexivity].
  destruct (getcol_present _ _ Ht) as [i [Hi Hget]]. rewrite Hget. cbn [bind].
  now rewrite (setcol_present _ _ _ _ Hi).
Qed.
End NormalizerFacts.


(** ** Empty input *)

Lemma suspicious_wineventlog_empty (df : DataFrame) :
  empty df = true -> suspicious_wineventlog df = Ok ([], df).
Proof.
  intros He. unfold suspicious_wineventlog. rewrite He.
  now destruct (first_present df event_cols).
Qed.

Lemma suspicious_dns_empty (df : DataFrame) :
  empty df = true -> suspicious_dns df = Ok [].
Proof. intros He. unfold suspicious_dns. now rewrite He. Qed.

Lemma combined_top_empty : combined_top [] [] = [].
Proof. reflexivity. Qed.

(** The scorers do not raise on any input. *)
Lemma suspicious_dns_returns (df : DataFrame) : exists out, suspicious_dns df = Ok out.
Proof.
  unfold suspicious_dns. destruct (empty df); [eauto |].
  destruct (query_col df) as [c |] eqn:Hq; [| eauto].
  assert (Hhas : has_column df c = true).
  { unfold query_col in Hq.
    destruct (first_present df query_cols) eqn:E.
    - injection Hq as <-. now apply first_present_In in E.
    - now apply first_present_In in Hq. }
  destruct (getcol_present _ _ Hhas) as [i [_ ->]]. simpl. eauto.
Qed.

(** C1.  On a frame without rows, whatever its columns, the normalizer
    returns the frame, the two scorers return a table without rows and the
    aggregator combines two such tables into one; the classifier returns
    two frames without rows when the frame has a [source] or a [sourcetype]
    column, and raises [KeyError] when it has neither, as the frame loaded
    from an empty document: the Windows mask is then the bare [False] of
    line 48, and line 54 indexes the frame with it. *)
Theorem empty_input_components (parse : Series -> string -> option string)
        (cols : list string) :
  let df := mkDF cols [] in
  normalize_time parse df = Ok df /\
  suspicious_wineventlog df = Ok ([], df) /\
  suspicious_dns df = Ok [] /\
  combined_top [] [] = [] /\
  split_logs df = (if mem "source" cols || mem "sourcetype" cols
                   then Ok (df, df)
                   else Raise (KeyError "False")).
Proof.
  intros df.
  split; [apply normalize_time_empty |].
  split; [now apply suspicious_wineventlog_empty |].
  split; [now apply suspicious_dns_empty |].
  split; [reflexivity |].
  destruct (mem "source" cols || mem "sourcetype" cols) eqn:Hsig.
  - now apply split_logs_empty_subset.
  - apply orb_false_elim in Hsig. destruct Hsig as [H1 H2].
    unfold split_logs, is_win, has_column. cbn [columns df]. now rewrite H1, H2.
Qed.

(** ** Further facts about the scorers *)

Lemma count_occ_filter (f : string -> bool) (l : list string) (x : string) :
  f x = true -> count_occ string_dec (filter f l) x = count_occ string_dec l x.
Proof.
  intros Hx. induction l as [| y l IH]; simpl; [reflexivity |].
  destruct (f y) eqn:Hy; simpl.
  - destruct (string_dec y x); now rewrite IH.
  - destruct (string_dec y x) as [-> | _]; [congruence | apply IH].
Qed.

Lemma dict_get_In (d : list (string * string)) (k default : string) :
  In k (map fst d) -> In (k, dict_get d k default) d.
Proof.
  induction d as [| [k' v] d IH]; simpl; [contradiction |].
  destruct (String.eqb_spec k k') as [-> | Hne]; [now left |].
  intros [E | H]; [congruence | right; auto].
Qed.

Lemma NoDup_snd_inj (d : list (string * string)) (x y v : string) :
  NoDup (map snd d) -> In (x, v) d -> In (y, v) d -> x = y.
Proof.
  induction d as [| [k w] d IH]; simpl; intros Hnd Hx Hy; [contradiction |].
  apply NoDup_cons_iff in Hnd. destruct Hnd as [Hnotin Hnd'].
  destruct Hx as [Ex | Hx], Hy as [Ey | Hy].
  - congruence.
  - injection Ex as -> ->. exfalso. apply Hnotin, in_map_iff. exists (y, v). auto.
  - injection Ey as -> ->. exfalso. apply Hnotin, in_map_iff. exists (x, v). auto.
  - eauto.
Qed.

Lemma labels_NoDup : NoDup (map snd suspicious_ids).
Proof.
  repeat (constructor; [simpl; intuition discriminate |]). constructor.
Qed.

(** Two catalog identifiers with the same label are the same. *)
Lemma label_inj (x y : string) :
  known x = true -> known y = true ->
  dict_get suspicious_ids x x = dict_get suspicious_ids y y -> x = y.
Proof.
  intros Hx Hy E. apply mem_In in Hx, Hy.
  apply (NoDup_snd_inj suspicious_ids x y (dict_get suspicious_ids x x) labels_NoDup).
  - now apply dict_get_In.
  - rewrite E. now apply dict_get_In.
Qed.

(** The catalog path: one row per catalog identifier that occurs, labelled,
    with its number of occurrences, in descending order of count. *)
Lemma catalog_ranking (df : DataFrame) (c : string) (col : Series) :
  first_present df event_cols = Some c ->
  getcol df c = Ok col ->
  (exists x, In x (astype_str col) /\ known x = true) ->
  exists out df',
    suspicious_wineventlog df = Ok (out, df') /\
    Forall (fun r => type r = "WinEventLog") out /\
    NoDup (map key out) /\
    StronglySorted (desc count) out /\
    (forall r, In r out ->
       exists x, In x (astype_str col) /\ known x = true /\
                 key r = dict_get suspicious_ids x x /\
                 count r = count_occ string_dec (astype_str col) x) /\
    (forall x, In x (astype_str col) -> known x = true ->
       In (mkRow "WinEventLog" (dict_get suspicious_ids x x)
                 (count_occ string_dec (astype_str col) x)) out).
Proof.
  intros Hc Hcol [x0 [Hx0 Hk0]].
  destruct (getcol_Ok _ _ _ Hcol) as [i [Hi ->]]. fold (id_text df i) in *.
  assert (He : empty df = false).
  { apply (not_empty df c i Hi). intros Hr. unfold id_text in Hx0.
    rewrite Hr in Hx0. contradiction. }
  set (ids := id_text df i) in *.
  set (vc := value_counts_by String.eqb (filter known ids)).
  assert (Hin : forall k n, In (k, n) vc <->
                            n = count_occ string_dec (filter known ids) k /\ 0 < n)
    by (intros; apply value_counts_In, String.eqb_eq).
  assert (Hcount : forall x, known x = true ->
            count_occ string_dec (filter known ids) x = count_occ string_dec ids x).
  { intros x Hx. now apply count_occ_filter. }
  exists (map label_row vc), (coerced df i).
  split.
  { rewrite (suspicious_wineventlog_run df c i Hc He Hi). fold ids.
    now rewrite (existsb_In known ids x0 Hx0 Hk0). }
  split.
  { apply Forall_forall. intros r Hr. apply in_map_iff in Hr.
    now destruct Hr as [kc [<- _]]. }
  split.
  { rewrite map_map.
    change (map (fun x => key (label_row x)) vc)
      with (map (fun kc : string * nat => dict_get suspicious_ids (fst kc) (fst kc)) vc).
    rewrite <- (map_map fst (fun k => dict_get suspicious_ids k k)).
    apply NoDup_map_NoDup_ForallPairs.
    - intros k1 k2 H1 H2. apply label_inj.
      + apply in_map_iff in H1. destruct H1 as [[k n] [<- Hkn]].
        apply (value_counts_key_In String.eqb string_dec String.eqb_eq) in Hkn.
        now apply filter_In in Hkn.
      + apply in_map_iff in H2. destruct H2 as [[k n] [<- Hkn]].
        apply (value_counts_key_In String.eqb string_dec String.eqb_eq) in Hkn.
        now apply filter_In in Hkn.
    - apply (value_counts_NoDup String.eqb String.eqb_eq). }
  split.
  { apply (sorted_map label_row snd); [reflexivity |]. apply value_counts_sorted. }
  split.
  - intros r Hr. apply in_map_iff in Hr. destruct Hr as [[k n] [<- Hkn]].
    pose proof (value_counts_key_In String.eqb string_dec String.eqb_eq _ _ _ Hkn) as Hk.
    apply filter_In in Hk. destruct Hk as [Hk Hkn'].
    apply Hin in Hkn. destruct Hkn as [-> _].
    exists k. simpl. rewrite (Hcount k Hkn'). auto.
  - intros x Hx Hk. apply in_map_iff.
    exists (x, count_occ string_dec ids x). split; [reflexivity |].
    apply Hin. rewrite (Hcount x Hk). split; [reflexivity |].
    now apply (count_occ_In string_dec).
Qed.

(** A domain is rare when it is the domain of one or two records. *)
Lemma rare_domains_In (work : list DnsRow) (d : string) :
  In d (rare_domains work) <->
  0 < count_occ string_dec (map domain work) d <= 2.
Proof.
  unfold rare_domains. rewrite in_map_iff. split.
  - intros [[k n] [<- Hkn]]. apply filter_In in Hkn. destruct Hkn as [Hkn Hle].
    apply (value_counts_In String.eqb string_dec String.eqb_eq) in Hkn.
    simpl in *. apply Nat.leb_le in Hle. lia.
  - intros [Hpos Hle]. exists (d, count_occ string_dec (map domain work) d).
    split; [reflexivity |]. apply filter_In. split.
    + apply (value_counts_In String.eqb string_dec String.eqb_eq). auto.
    + simpl. now apply Nat.leb_le.
Qed.

(** *** The domain approximation has at most one dot *)

Lemma is_dot_eq (c : ascii) : Str.is_dot c = true <-> c = "."%char.
Proof.
  unfold Str.is_dot, Str.code. rewrite Nat.eqb_eq. split.
  - intros H. rewrite <- (ascii_nat_embedding c), H. reflexivity.
  - now intros ->.
Qed.

Lemma split_dot_not_nil (q : string) : Str.split_dot q <> [].
Proof.
  destruct q as [| c q]; simpl; [discriminate |].
  destruct (Str.is_dot c); [discriminate |].
  destruct (Str.split_dot q); discriminate.
Qed.

Lemma concat_split_dot (q : string) : String.concat "." (Str.split_dot q) = q.
Proof.
  induction q as [| c q IH]; simpl; [reflexivity |].
  destruct (Str.is_dot c) eqn:Hc.
  - apply is_dot_eq in Hc. subst c.
    pose proof (split_dot_not_nil q) as Hne.
    destruct (Str.split_dot q) as [| h t] eqn:E; [contradiction |].
    change (String.concat "." ("" :: h :: t))
      with ("" ++ "." ++ String.concat "." (h :: t))%string.
    rewrite IH. reflexivity.
  - pose proof (split_dot_not_nil q) as Hne.
    destruct (Str.split_dot q) as [| h t] eqn:E; [contradiction |].
    destruct t as [| h' t]; simpl in *; now rewrite <- IH.
Qed.

Lemma split_dot_dotless (q : string) :
  Forall (fun p => Str.count Str.is_dot p = 0) (Str.split_dot q).
Proof.
  induction q as [| c q IH]; simpl; [repeat constructor |].
  destruct (Str.is_dot c) eqn:Hc; [constructor; auto |].
  destruct (Str.split_dot q) as [| h t]; [repeat constructor; simpl; now rewrite Hc |].
  inversion IH; subst. constructor; [simpl; now rewrite Hc | assumption].
Qed.

Lemma count_append (p : ascii -> bool) (a b : string) :
  Str.count p (a ++ b) = Str.count p a + Str.count p b.
Proof. induction a as [| c a IH]; simpl; [reflexivity | rewrite IH; lia]. Qed.

Lemma count_concat_dotless (l : list string) :
  Forall (fun p => Str.count Str.is_dot p = 0) l ->
  Str.count Str.is_dot (String.concat "." l) = List.length l - 1.
Proof.
  induction 1 as [| x l Hx Hl IH]; [reflexivity |].
  destruct l as [| y l]; [simpl; exact Hx |].
  change (String.concat "." (x :: y :: l))
    with (x ++ "." ++ String.concat "." (y :: l))%string.
  rewrite !count_append, Hx, IH. simpl. lia.
Qed.

Lemma Forall_skipn {A : Type} (P : A -> Prop) (n : nat) (l : list A) :
  Forall P l -> Forall P (skipn n l).
Proof.
  intros H. apply Forall_forall. intros x Hx.
  rewrite Forall_forall in H. apply H. now apply In_skipn in Hx.
Qed.

Lemma extract_domain_dots (v : value) :
  Str.count Str.is_dot (extract_domain v) <= 1.
Proof.
  destruct v as [| s | t |]; simpl; try lia.
  destruct (Str.is_empty s); [simpl; lia |].
  set (q := Str.lower (Str.strip_chars Str.is_dot s)).
  pose proof (split_dot_dotless q) as Hd.
  destruct (Nat.leb_spec (List.length (Str.split_dot q)) 2) as [Hle | Hgt].
  - rewrite <- (concat_split_dot q) at 1. rewrite count_concat_dotless by assumption. lia.
  - unfold Str.last_n. rewrite count_concat_dotless by now apply Forall_skipn.
    rewrite length_skipn. lia.
Qed.

(** * Further properties of the code *)

(** ** Record loader *)

Lemma member_app_result (sib : list (string * json)) (v : json) :
  ~ In "result" (map fst sib) -> member "result" (sib ++ [("result", v)]) = Some v.
Proof.
  induction sib as [| [k w] sib IH]; intros Hn; cbn [app member].
  - now rewrite String.eqb_refl.
  - destruct (String.eqb_spec "result" k) as [E | _].
    + exfalso. apply Hn. left. now symmetry.
    + apply IH. intros H. apply Hn. now right.
Qed.

Lemma member_json_of_fields (k : string) (r : fields) :
  member k (json_of_fields r) = option_map JStr (get_field k r).
Proof.
  induction r as [| [k' v] r IH]; simpl; [reflexivity |].
  now destruct (String.eqb k k').
Qed.

(** Whatever the document, if its entries that are objects each hold an
    object under [result], it loads as those objects, in order: what else a
    wrapper holds is dropped, and the entries that are not objects are
    skipped wherever they stand. *)
Theorem load_rows_unwraps (raw : list json) (recs : list (list (string * json))) :
  Forall2 wraps (filter is_object raw) recs -> load_rows raw = recs.
Proof.
  revert recs. induction raw as [| item raw IH]; intros recs H.
  - inversion H. reflexivity.
  - destruct item as [x | | l | d]; cbn [filter is_object load_rows] in *; auto.
    inversion H as [| ? r ? recs' [d' [Hd Hr]] Hrest]; subst.
    injection Hd as <-. rewrite Hr. f_equal. now apply IH.
Qed.

Lemma load_rows_unwraps_witness :
  load_rows [wrapped [("preview", JAtom)] [("source", JStr "WinEventLog:Security")];
             JDict [("result", JDict [("query", JStr "a.com")]); ("lastrow", JAtom)];
             JStr "eof";
             wrapped [] []]
  = [[("source", JStr "WinEventLog:Security")]; [("query", JStr "a.com")]; []].
Proof.
  apply load_rows_unwraps. cbn [filter is_object wrapped app].
  repeat (constructor; [eexists; split; reflexivity |]). constructor.
Defined.

(** Records of text fields given directly, without wrapper, load as they
    are, one row each: a field called [result] that holds text does not make
    a record a wrapper. *)
Theorem load_rows_flat (recs : list fields) :
  load_rows (map (fun r => JDict (json_of_fields r)) recs) = map json_of_fields recs.
Proof.
  induction recs as [| r recs IH]; [reflexivity |].
  cbn [map load_rows]. rewrite member_json_of_fields, IH.
  now destruct (get_field "result" r).
Qed.

(** The loader yields at most one row per entry. *)
Lemma load_rows_length (raw : list json) : List.length (load_rows raw) <= List.length raw.
Proof.
  induction raw as [| item raw IH]; simpl; [lia |].
  destruct item as [x | | l | d]; simpl; try lia.
  destruct (member "result" d) as [[x | | l | r] |]; simpl; lia.
Qed.

(** ** Frame of the loaded records *)

Lemma add_columns_In (r : fields) : forall cols c,
  In c (add_columns cols r) <-> In c cols \/ In c (map fst r).
Proof.
  unfold add_columns. induction r as [| [k v] r IH]; simpl; intros cols c; [tauto |].
  rewrite IH. destruct (mem k cols) eqn:E.
  - apply mem_In in E. split; [tauto |]. intros [H | [<- | H]]; auto.
  - rewrite in_app_iff. simpl. tauto.
Qed.

Lemma add_columns_NoDup (r : fields) : forall cols,
  NoDup cols -> NoDup (add_columns cols r).
Proof.
  unfold add_columns. induction r as [| [k v] r IH]; simpl; intros cols Hnd; [assumption |].
  apply IH. destruct (mem k cols) eqn:E; [assumption |].
  apply NoDup_app; [assumption | repeat constructor; auto |].
  intros x Hx [<- | []]. apply mem_In in Hx. congruence.
Qed.

Lemma union_columns_In (recs : list fields) : forall cols c,
  In c (fold_left add_columns recs cols) <->
  In c cols \/ exists r, In r recs /\ In c (map fst r).
Proof.
  induction recs as [| r recs IH]; simpl; intros cols c.
  - split; [tauto |]. intros [H | [r [[] _]]]. exact H.
  - rewrite IH, add_columns_In. split.
    + intros [[H | H] | [r' [Hr' H]]]; eauto.
    + intros [H | [r' [[<- | Hr'] H]]]; eauto.
Qed.

Lemma union_columns_NoDup (recs : list fields) : forall cols,
  NoDup cols -> NoDup (fold_left add_columns recs cols).
Proof.
  induction recs as [| r recs IH]; simpl; intros cols Hnd; [assumption |].
  apply IH. now apply add_columns_NoDup.
Qed.

Lemma get_field_In (c : string) (r : fields) :
  In c (map fst r) <-> exists v, get_field c r = Some v.
Proof.
  induction r as [| [k v] r IH]; simpl.
  - split; [tauto | intros [v H]; discriminate].
  - destruct (String.eqb_spec c k) as [-> | Hne].
    + split; eauto.
    + rewrite <- IH. split; [intros [H | H]; [congruence | assumption] | tauto].
Qed.

Lemma index_of_nth (c : string) (l : list string) (i : nat) (d : string) :
  index_of c l = Some i -> i < List.length l /\ nth i l d = c.
Proof.
  revert i. induction l as [| x l IH]; simpl; intros i; [discriminate |].
  destruct (String.eqb_spec c x) as [-> | _].
  - intros [= <-]. split; [lia | reflexivity].
  - destruct (index_of c l) as [j |]; [| discriminate].
    intros [= <-]. destruct (IH j eq_refl). split; [lia | assumption].
Qed.

(** The frame built from the loaded records has one row per record, each as
    wide as the list of columns; its columns are the field names that occur,
    each once. *)
Theorem DataFrame_of_records_shape (recs : list fields) :
  let df := DataFrame_of_records recs in
  List.length (rows df) = List.length recs /\
  Forall (fun row => List.length row = List.length (columns df)) (rows df) /\
  NoDup (columns df) /\
  (forall c, has_column df c = true <-> exists r, In r recs /\ In c (map fst r)).
Proof.
  unfold DataFrame_of_records. cbn [rows columns].
  split; [apply length_map |]. split; [| split].
  - apply Forall_forall. intros row Hrow. apply in_map_iff in Hrow.
    destruct Hrow as [r [<- _]]. apply length_map.
  - apply union_columns_NoDup. constructor.
  - intros c. unfold has_column. cbn [columns]. rewrite mem_In, union_columns_In.
    simpl. tauto.
Qed.

(** Reading a column of that frame gives, record by record, the text of the
    field or a missing cell; reading a name that is no field of any record
    raises [KeyError]. *)
Theorem DataFrame_of_records_getcol (recs : list fields) (c : string) :
  getcol (DataFrame_of_records recs) c =
    if existsb (fun r => mem c (map fst r)) recs
    then Ok (map (fun r => cell_of r c) recs)
    else Raise (KeyError c).
Proof.
  set (cols := fold_left add_columns recs []).
  assert (Hin : In c cols <-> exists r, In r recs /\ In c (map fst r)).
  { unfold cols. rewrite union_columns_In. simpl. tauto. }
  unfold getcol, DataFrame_of_records. cbn [rows columns]. fold cols.
  destruct (existsb (fun r => mem c (map fst r)) recs) eqn:Ex.
  - apply existsb_exists in Ex. destruct Ex as [r [Hr Hc]]. apply mem_In in Hc.
    assert (Hcols : mem c cols = true) by (apply mem_In, Hin; eauto).
    destruct (index_of_mem _ _ Hcols) as [i [Hi Hlt]]. rewrite Hi.
    destruct (index_of_nth _ _ _ "" Hi) as [_ Hnth].
    rewrite map_map. f_equal. apply map_ext. intros r'. unfold cell.
    rewrite (nth_indep _ VNaN (cell_of r' "")) by now rewrite length_map.
    now rewrite map_nth, Hnth.
  - rewrite index_of_not_mem; [reflexivity |].
    destruct (mem c cols) eqn:Hm; [| reflexivity].
    apply mem_In, Hin in Hm. destruct Hm as [r [Hr Hc]].
    assert (existsb (fun r => mem c (map fst r)) recs = true); [| congruence].
    apply existsb_exists. exists r. split; [assumption | now apply mem_In].
Qed.

(** ** Source classifier *)

Lemma filter_idem {A : Type} (f : A -> bool) (l : list A) :
  filter f (filter f l) = filter f l.
Proof.
  induction l as [| x l IH]; simpl; [reflexivity |].
  destruct (f x) eqn:E; simpl; [now rewrite E, IH | exact IH].
Qed.

Lemma win_col_present (df : DataFrame) :
  has_column df "source" || has_column df "sourcetype" = true ->
  has_column df (win_col df) = true /\ has_column df (dns_col df) = true.
Proof.
  unfold win_col, dns_col.
  destruct (has_column df "source") eqn:E1, (has_column df "sourcetype") eqn:E2;
    simpl; auto; discriminate.
Qed.

(** The classifier with a typing column: both subsets as filters of the
    rows, on the text of the column each detection reads. *)
Lemma split_logs_filter (df : DataFrame) :
  has_column df "source" || has_column df "sourcetype" = true ->
  exists i j,
    index_of (win_col df) (columns df) = Some i /\
    index_of (dns_col df) (columns df) = Some j /\
    split_logs df =
      Ok (mkDF (columns df) (filter (fun r => is_win_text (to_str (cell i r))) (rows df)),
          mkDF (columns df) (filter (fun r => is_dns_text (to_str (cell j r))) (rows df))).
Proof.
  intros Hsig. destruct (win_col_present df Hsig) as [Hw Hd].
  destruct (getcol_present _ _ Hw) as [i [Hi Hgi]].
  destruct (getcol_present _ _ Hd) as [j [Hj Hgj]].
  exists i, j. split; [exact Hi |]. split; [exact Hj |].
  assert (Hwin : is_win df = Ok (IMask (map (fun r => is_win_text (to_str (cell i r))) (rows df)))).
  { unfold is_win, win_col in *.
    destruct (has_column df "source"); [| rewrite Hw]; rewrite Hgi; cbn [bind];
      unfold str_contains, astype_str; now rewrite !map_map. }
  assert (Hdns : is_dns df = Ok (IMask (map (fun r => is_dns_text (to_str (cell j r))) (rows df)))).
  { unfold is_dns, dns_col in *.
    destruct (has_column df "sourcetype"); [| rewrite Hd]; rewrite Hgj; cbn [bind];
      unfold str_contains_nocase, astype_str; now rewrite !map_map. }
  unfold split_logs. rewrite Hwin, Hdns. cbn [bind getitem].
  now rewrite !select_filter.
Qed.

(** With a typing column, a record is in the Windows subset exactly when
    the text of [source] (of [sourcetype] when there is no [source])
    contains "WinEventLog", and in the DNS subset exactly when the text of
    [sourcetype] (of [source] when there is no [sourcetype]) contains "dns"
    in any letter case; both subsets keep the columns and the order of the
    input. *)
Theorem split_logs_membership (df : DataFrame) :
  has_column df "source" || has_column df "sourcetype" = true ->
  exists win_df dns_df i j,
    split_logs df = Ok (win_df, dns_df) /\
    index_of (win_col df) (columns df) = Some i /\
    index_of (dns_col df) (columns df) = Some j /\
    columns win_df = columns df /\ columns dns_df = columns df /\
    Subseq (rows win_df) (rows df) /\ Subseq (rows dns_df) (rows df) /\
    (forall r, In r (rows win_df) <->
               In r (rows df) /\ Str.contains "WinEventLog" (to_str (cell i r)) = true) /\
    (forall r, In r (rows dns_df) <->
               In r (rows df) /\ Str.contains "dns" (Str.lower (to_str (cell j r))) = true).
Proof.
  intros Hsig. destruct (split_logs_filter df Hsig) as (i & j & Hi & Hj & Hrun).
  eexists _, _, i, j. split; [exact Hrun |]. cbn [rows columns].
  split; [exact Hi |]. split; [exact Hj |].
  split; [reflexivity |]. split; [reflexivity |].
  split; [rewrite <- select_filter; apply select_Subseq |].
  split; [rewrite <- select_filter; apply select_Subseq |].
  split; intros r; apply filter_In.
Qed.

Lemma split_logs_membership_witness :
  has_column mixed_df "source" || has_column mixed_df "sourcetype" = true /\
  exists win_df dns_df,
    split_logs mixed_df = Ok (win_df, dns_df) /\
    Subseq (rows win_df) (rows mixed_df) /\
    In [VStr "WinEventLog:System"; VStr "dnsmasq"; VStr "7045"; VNaN] (rows win_df) /\
    In [VStr "WinEventLog:System"; VStr "dnsmasq"; VStr "7045"; VNaN] (rows dns_df).
Proof.
  split; [reflexivity |].
  destruct (split_logs_membership mixed_df eq_refl)
    as (w & d & i & j & Hrun & Hi & Hj & _ & _ & Hsub & _ & Hw & Hd).
  vm_compute in Hi, Hj. injection Hi as <-. injection Hj as <-.
  exists w, d. split; [exact Hrun |]. split; [exact Hsub |]. split.
  - apply Hw. split; [simpl; tauto | reflexivity].
  - apply Hd. split; [simpl; tauto | reflexivity].
Defined.

(** Classifying a subset again changes nothing: the Windows subset is the
    Windows subset of itself, and the DNS subset the DNS subset of itself. *)
Theorem split_logs_again (df win_df dns_df : DataFrame) :
  split_logs df = Ok (win_df, dns_df) ->
  (exists d, split_logs win_df = Ok (win_df, d)) /\
  (exists w, split_logs dns_df = Ok (w, dns_df)).
Proof.
  intros Hrun.
  assert (Hsig : has_column df "source" || has_column df "sourcetype" = true).
  { destruct (has_column df "source") eqn:E1; [reflexivity |].
    destruct (has_column df "sourcetype") eqn:E2; [reflexivity |].
    unfold split_logs, is_win in Hrun. rewrite E1, E2 in Hrun. discriminate. }
  destruct (split_logs_filter df Hsig) as (i & j & Hi & Hj & Hrun').
  rewrite Hrun in Hrun'. injection Hrun' as -> ->. split.
  - match goal with |- context [split_logs ?w] => set (win := w) end.
    assert (Hsig' : has_column win "source" || has_column win "sourcetype" = true)
      by exact Hsig.
    destruct (split_logs_filter win Hsig') as (i' & j' & Hi' & _ & Hrun').
    assert (i' = i) as -> by (change (index_of (win_col df) (columns df) = Some i') in Hi';
                              congruence).
    eexists. rewrite Hrun'. cbn [rows columns win]. now rewrite filter_idem.
  - match goal with |- context [split_logs ?w] => set (dns := w) end.
    assert (Hsig' : has_column dns "source" || has_column dns "sourcetype" = true)
      by exact Hsig.
    destruct (split_logs_filter dns Hsig') as (i' & j' & _ & Hj' & Hrun').
    assert (j' = j) as -> by (change (index_of (dns_col df) (columns df) = Some j') in Hj';
                              congruence).
    eexists. rewrite Hrun'. cbn [rows columns dns]. now rewrite filter_idem.
Qed.

Lemma split_logs_again_witness :
  exists win_df dns_df d w,
    split_logs mixed_df = Ok (win_df, dns_df) /\
    List.length (rows win_df) = 2 /\
    split_logs win_df = Ok (win_df, d) /\
    split_logs dns_df = Ok (w, dns_df).
Proof.
  destruct (split_logs_with_signal mixed_df eq_refl) as (w0 & d0 & Hrun & _).
  destruct (split_logs_again mixed_df w0 d0 Hrun) as [[d Hd] [w Hw]].
  exists w0, d0, d, w. split; [exact Hrun |].
  split; [| split; assumption].
  vm_compute in Hrun. injection Hrun as <- _. reflexivity.
Defined.

(** ** Field normalizer *)

Lemma to_datetime_is_time (parse : Series -> string -> option string) (s : Series) :
  forallb is_time (to_datetime parse s) = true.
Proof.
  unfold to_datetime. apply forallb_forall. intros v Hv. apply in_map_iff in Hv.
  destruct Hv as [[| x | t |] [<- _]]; try reflexivity. now destruct (parse s x).
Qed.

Lemma normalize_time_returns (parse : Series -> string -> option string) (df : DataFrame) :
  exists df1, normalize_time parse df = Ok df1 /\
              columns df1 = columns df /\
              List.length (rows df1) = List.length (rows df).
Proof.
  unfold normalize_time. destruct (has_column df "_time") eqn:Ht; [| eauto].
  destruct (getcol_present _ _ Ht) as [i [Hi Hget]]. rewrite Hget. cbn [bind].
  rewrite (setcol_present _ _ _ _ Hi). eexists. split; [reflexivity |].
  split; [reflexivity |]. cbn [rows].
  apply zip_with_length. now rewrite to_datetime_length, length_map.
Qed.

(** The normalizer never raises and keeps the number of records.  Without a
    [_time] column it returns the frame as it is; with one, every cell of
    that column is afterwards a timestamp or the null timestamp: text that
    cannot be read and missing cells become null, none stays text. *)
Theorem normalize_time_coerces (parse : Series -> string -> option string)
        (df : DataFrame) :
  exists df1,
    normalize_time parse df = Ok df1 /\
    List.length (rows df1) = List.length (rows df) /\
    (has_column df "_time" = false -> df1 = df) /\
    (has_column df "_time" = true ->
     exists col, getcol df "_time" = Ok col /\
                 getcol df1 "_time" = Ok (to_datetime parse col) /\
                 forallb is_time (to_datetime parse col) = true).
Proof.
  destruct (normalize_time_returns parse df) as (df1 & Hrun & _ & Hlen).
  exists df1. split; [exact Hrun |]. split; [exact Hlen |].
  unfold normalize_time in Hrun. split; intros Ht; rewrite Ht in Hrun.
  - now injection Hrun.
  - destruct (getcol_present _ _ Ht) as [i [Hi Hget]]. rewrite Hget in *.
    cbn [bind] in Hrun. injection Hrun as <-.
    eexists. split; [reflexivity |]. split; [| apply to_datetime_is_time].
    rewrite (setcol_present _ _ _ _ Hi). unfold getcol. cbn [columns rows].
    rewrite Hi. rewrite map_cell_zip_upd; [reflexivity |].
    now rewrite to_datetime_length, length_map.
Qed.

Lemma normalize_time_coerces_witness :
  exists df1,
    normalize_time parse_date timed_df = Ok df1 /\
    getcol df1 "_time" = Ok [VTime "2016-08-24"; VNaT; VNaT].
Proof.
  destruct (normalize_time_coerces parse_date timed_df) as (df1 & Hrun & _ & _ & Ht).
  exists df1. split; [exact Hrun |].
  destruct (Ht eq_refl) as (col & Hcol & Hnew & _).
  vm_compute in Hcol. injection Hcol as <-. exact Hnew.
Defined.

(** ** Windows rule scorer *)

Lemma tally_add_total {A : Type} (eqb : A -> A -> bool) (x : A) (t : list (A * nat)) :
  list_sum (map snd (tally_add eqb x t)) = S (list_sum (map snd t)).
Proof.
  induction t as [| [y n] t IH]; simpl; [reflexivity |].
  destruct (eqb x y); simpl; [lia | rewrite IH; lia].
Qed.

(** The counts of [value_counts] add up to the length of the series. *)
Lemma value_counts_total {A : Type} (eqb : A -> A -> bool) (l : list A) :
  list_sum (map snd (value_counts_by eqb l)) = List.length l.
Proof.
  unfold value_counts_by.
  rewrite (Permutation_map snd (sort_desc_perm snd (tally eqb l))).
  unfold tally. assert (H : forall t,
    list_sum (map snd (fold_left (fun t x => tally_add eqb x t) l t))
    = List.length l + list_sum (map snd t)).
  { induction l as [| x l IH]; simpl; intros t; [reflexivity |].
    rewrite IH, tally_add_total. lia. }
  rewrite H. simpl. lia.
Qed.

Lemma list_sum_firstn (n : nat) (l : list nat) : list_sum (firstn n l) <= list_sum l.
Proof.
  rewrite <- (firstn_skipn n l) at 2. rewrite list_sum_app. lia.
Qed.

Lemma suspicious_wineventlog_skips (df : DataFrame) :
  first_present df event_cols = None \/ empty df = true ->
  suspicious_wineventlog df = Ok ([], df).
Proof.
  intros [H | H]; unfold suspicious_wineventlog; rewrite H; [reflexivity |].
  now destruct (first_present df event_cols).
Qed.

(** The scorer on any frame: the [KeyError] of line 124, no rows, or the
    catalog table. *)
Lemma suspicious_wineventlog_cases (df : DataFrame) :
  (falls_back df = true /\
   suspicious_wineventlog df = Raise (KeyError "['key'] not in index")) \/
  (falls_back df = false /\ suspicious_wineventlog df = Ok ([], df)) \/
  (falls_back df = false /\
   exists i,
     suspicious_wineventlog df =
       Ok (map label_row (value_counts_by String.eqb (filter known (id_text df i))),
           coerced df i)).
Proof.
  unfold falls_back.
  destruct (first_present df event_cols) as [c |] eqn:Hc.
  - destruct (first_present_In _ _ _ Hc) as [_ Hhas].
    destruct (getcol_present _ _ Hhas) as [i [Hi _]]. rewrite Hi.
    destruct (empty df) eqn:He.
    + right. left. split; [reflexivity |]. apply suspicious_wineventlog_skips. now right.
    + rewrite (suspicious_wineventlog_run df c i Hc He Hi).
      destruct (existsb known (id_text df i)); simpl.
      * right. right. split; [reflexivity |]. now exists i.
      * left. split; reflexivity.
  - right. left. split; [reflexivity |]. apply suspicious_wineventlog_skips. now left.
Qed.

Lemma id_text_rows (df : DataFrame) (i : nat) :
  List.length (id_text df i) = List.length (rows df).
Proof. unfold id_text, astype_str. now rewrite !length_map. Qed.

Lemma suspicious_wineventlog_bounded (df : DataFrame) :
  (falls_back df = true ->
   suspicious_wineventlog df = Raise (KeyError "['key'] not in index")) /\
  (falls_back df = false ->
   exists out df',
     suspicious_wineventlog df = Ok (out, df') /\
     List.length out <= 19 /\
     list_sum (map count out) <= List.length (rows df) /\
     Forall (fun r => 1 <= count r) out).
Proof.
  destruct (suspicious_wineventlog_cases df)
    as [[Hf H] | [[Hf H] | [Hf [i H]]]]; rewrite Hf;
    split; intros Hx; try discriminate.
  - exact H.
  - exists [], df. split; [exact H |]. simpl. split; [lia |]. split; [lia | constructor].
  - eexists _, _. split; [exact H |].
    set (vc := value_counts_by String.eqb (filter known (id_text df i))).
    split; [| split].
    + rewrite length_map, <- (length_map fst vc).
      change 19 with (List.length (dict_keys suspicious_ids)).
      apply NoDup_incl_length.
      * apply (value_counts_NoDup String.eqb String.eqb_eq).
      * intros k Hk. apply in_map_iff in Hk. destruct Hk as [[k' n] [<- Hkn]].
        apply (value_counts_key_In String.eqb string_dec String.eqb_eq) in Hkn.
        apply filter_In in Hkn. destruct Hkn as [_ Hkn]. now apply mem_In.
    + rewrite map_map. change (map (fun x => count (label_row x)) vc) with (map snd vc).
      unfold vc. rewrite value_counts_total, <- (id_text_rows df i). apply filter_length_le.
    + apply Forall_forall. intros r Hr. apply in_map_iff in Hr.
      destruct Hr as [[k n] [<- Hkc]]. simpl.
      apply (value_counts_In String.eqb string_dec String.eqb_eq) in Hkc. lia.
Qed.

(** The scorer raises [KeyError] exactly on a subset that has records and
    an identifier column without any catalog key in it.  On every other
    frame it returns a table of at most 19 rows (one per catalog entry at
    most), each row with a count of at least 1, the counts adding up to no
    more than the number of records of the subset. *)
Theorem suspicious_wineventlog_bounds (df : DataFrame) :
  (falls_back df = true ->
   suspicious_wineventlog df = Raise (KeyError "['key'] not in index")) /\
  (falls_back df = false ->
   exists out df',
     suspicious_wineventlog df = Ok (out, df') /\
     List.length out <= 19 /\
     total out <= List.length (rows df) /\
     Forall (fun r => 1 <= count r) out).
Proof. exact (suspicious_wineventlog_bounded df). Qed.

Lemma suspicious_wineventlog_bounds_witness :
  falls_back win_9999_8888 = true /\
  suspicious_wineventlog win_9999_8888 = Raise (KeyError "['key'] not in index") /\
  falls_back win_4625_4688 = false /\
  exists out df', suspicious_wineventlog win_4625_4688 = Ok (out, df') /\ total out <= 8.
Proof.
  destruct (suspicious_wineventlog_bounds win_9999_8888) as [Hr _].
  destruct (suspicious_wineventlog_bounds win_4625_4688) as [_ Ho].
  split; [reflexivity |]. split; [now apply Hr |]. split; [reflexivity |].
  destruct (Ho eq_refl) as (out & df' & Hrun & _ & Htot & _).
  exists out, df'. split; [exact Hrun | exact Htot].
Defined.

(** ** DNS heuristic scorer *)

Lemma count_occ_rare_hits (work : list DnsRow) (d : string) :
  count_occ string_dec (map domain (rare_hits work)) d =
    if mem d (rare_domains work) then count_occ string_dec (map domain work) d else 0.
Proof.
  unfold rare_hits. generalize (rare_domains work) as R. intros R.
  induction work as [| w work IH]; simpl; [now destruct (mem d R) |].
  destruct (mem (domain w) R) eqn:E; simpl.
  - destruct (string_dec (domain w) d) as [<- | Hne]; rewrite IH.
    + now rewrite E.
    + reflexivity.
  - destruct (string_dec (domain w) d) as [<- | Hne]; rewrite IH.
    + now rewrite E.
    + reflexivity.
Qed.

(** The rare table before [head]: the domains met once or twice in the
    whole subset, each with that number. *)
Lemma rare_counts_In (work : list DnsRow) (d : string) (n : nat) :
  In (d, n) (value_counts_by String.eqb (map domain (rare_hits work))) <->
  n = count_occ string_dec (map domain work) d /\ 1 <= n <= 2.
Proof.
  rewrite (value_counts_In String.eqb string_dec String.eqb_eq), count_occ_rare_hits.
  destruct (mem d (rare_domains work)) eqn:E.
  - apply mem_In, rare_domains_In in E. split; intros [-> H]; split; auto; lia.
  - split; [lia |]. intros [-> H].
    assert (mem d (rare_domains work) = true); [| congruence].
    apply mem_In, rare_domains_In. lia.
Qed.

Lemma suspicious_dns_run (df : DataFrame) (c : string) (col : Series) :
  empty df = false -> query_col df = Some c -> getcol df c = Ok col ->
  suspicious_dns df =
    Ok (map (tag rare_tag)
            (head 10 (value_counts_by String.eqb
                        (map domain (rare_hits (dns_work df (astype_str col))))))
        ++ map (tag weird_tag)
               (head 10 (value_counts_by String.eqb
                           (map qname (suspicious_q (dns_work df (astype_str col))))))).
Proof.
  intros He Hq Hcol. unfold suspicious_dns. now rewrite He, Hq, Hcol.
Qed.

Lemma query_col_present (df : DataFrame) (c : string) :
  query_col df = Some c -> has_column df c = true.
Proof.
  unfold query_col. destruct (first_present df query_cols) eqn:E.
  - intros [= <-]. now apply first_present_In in E.
  - intros H. now apply first_present_In in H.
Qed.

Lemma suspicious_dns_cases (df : DataFrame) :
  suspicious_dns df = Ok [] \/
  exists c col,
    empty df = false /\ query_col df = Some c /\ getcol df c = Ok col /\
    List.length col = List.length (rows df).
Proof.
  destruct (empty df) eqn:He; [left; now apply suspicious_dns_empty |].
  destruct (query_col df) as [c |] eqn:Hq.
  - right. destruct (getcol_present _ _ (query_col_present _ _ Hq)) as [i [_ Hget]].
    exists c, (map (cell i) (rows df)). rewrite length_map. auto.
  - left. unfold suspicious_dns. now rewrite He, Hq.
Qed.

Lemma tagged_rows (t : string) (l : list (string * nat)) (P : RankedEntry -> Prop) :
  (forall kc, In kc l -> P (tag t kc)) -> Forall P (map (tag t) l).
Proof.
  intros H. apply Forall_forall. intros r Hr. apply in_map_iff in Hr.
  destruct Hr as [kc [<- Hkc]]. auto.
Qed.

Lemma dns_work_length (df : DataFrame) (s : list string) :
  List.length s = List.length (rows df) ->
  List.length (dns_work df s) = List.length (rows df).
Proof.
  intros H. unfold dns_work. rewrite zip_with_length; rewrite length_map; auto.
Qed.

Lemma suspicious_dns_shaped (df : DataFrame) :
  exists rare weird,
    suspicious_dns df = Ok (rare ++ weird) /\
    List.length rare <= 10 /\ List.length weird <= 10 /\
    Forall (fun r => type r = rare_tag /\ 1 <= count r <= 2) rare /\
    Forall (fun r => type r = weird_tag /\ 1 <= count r) weird /\
    StronglySorted (desc count) rare /\ StronglySorted (desc count) weird /\
    list_sum (map count rare) <= List.length (rows df) /\
    list_sum (map count weird) <= List.length (rows df).
Proof.
  destruct (suspicious_dns_cases df) as [H | (c & col & He & Hq & Hcol & Hlen)].
  - exists [], []. rewrite H. simpl.
    repeat (split; [first [reflexivity | lia | constructor] |]). lia.
  - rewrite (suspicious_dns_run df c col He Hq Hcol).
    set (work := dns_work df (astype_str col)).
    assert (Hwork : List.length work = List.length (rows df)).
    { apply dns_work_length. unfold astype_str. now rewrite length_map. }
    eexists _, _. split; [reflexivity |]. unfold head.
    split; [rewrite length_map; apply firstn_le_length |].
    split; [rewrite length_map; apply firstn_le_length |].
    split.
    { apply tagged_rows. intros [d n] Hd. apply In_firstn, rare_counts_In in Hd.
      simpl. split; [reflexivity | tauto]. }
    split.
    { apply tagged_rows. intros [q n] Hq'. apply In_firstn in Hq'.
      apply (value_counts_In String.eqb string_dec String.eqb_eq) in Hq'.
      simpl. split; [reflexivity | lia]. }
    split.
    { apply (sorted_map (tag rare_tag) snd); [reflexivity |].
      apply sorted_firstn, value_counts_sorted. }
    split.
    { apply (sorted_map (tag weird_tag) snd); [reflexivity |].
      apply sorted_firstn, value_counts_sorted. }
    split.
    + rewrite map_map. change (map (fun x => count (tag rare_tag x))) with (map (@snd string nat)).
      rewrite <- firstn_map. etransitivity; [apply list_sum_firstn |].
      rewrite value_counts_total, length_map, <- Hwork. apply filter_length_le.
    + rewrite map_map. change (map (fun x => count (tag weird_tag x))) with (map (@snd string nat)).
      rewrite <- firstn_map. etransitivity; [apply list_sum_firstn |].
      rewrite value_counts_total, length_map, <- Hwork. apply filter_length_le.
Qed.

(** On every frame the DNS scorer returns: first at most ten rows tagged
    "DNS (rare domains)", each with a count of 1 or 2, then at most ten rows
    tagged "DNS (weird subdomains)"; each part is in descending order of
    count and counts no more records than the subset has. *)
Theorem suspicious_dns_shape (df : DataFrame) :
  exists rare weird,
    suspicious_dns df = Ok (rare ++ weird) /\
    List.length rare <= 10 /\ List.length weird <= 10 /\
    Forall (fun r => type r = "DNS (rare domains)" /\ 1 <= count r <= 2) rare /\
    Forall (fun r => type r = "DNS (weird subdomains)" /\ 1 <= count r) weird /\
    StronglySorted (desc count) rare /\ StronglySorted (desc count) weird /\
    total rare <= List.length (rows df) /\
    total weird <= List.length (rows df).
Proof. exact (suspicious_dns_shaped df). Qed.

(** The rare-domain rows carry the number of records of the whole subset
    that have the domain, which is 1 or 2: a domain of three records or more
    has no row.  When at most ten domains are rare, each of them has its
    row. *)
Theorem rare_domain_rows (df : DataFrame) (c : string) (col : Series) :
  empty df = false -> query_col df = Some c -> getcol df c = Ok col ->
  let domains := map domain (dns_work df (astype_str col)) in
  exists out,
    suspicious_dns df = Ok out /\
    (forall r, In r out -> type r = "DNS (rare domains)" ->
       count r = count_occ string_dec domains (key r) /\ 1 <= count r <= 2) /\
    (List.length (rare_domains (dns_work df (astype_str col))) <= 10 ->
     forall d, 1 <= count_occ string_dec domains d <= 2 ->
       In (mkRow "DNS (rare domains)" d (count_occ string_dec domains d)) out).
Proof.
  intros He Hq Hcol domains. rewrite (suspicious_dns_run df c col He Hq Hcol).
  set (work := dns_work df (astype_str col)) in *.
  set (vc := value_counts_by String.eqb (map domain (rare_hits work))).
  eexists. split; [reflexivity |]. split.
  - intros r Hr Ht. apply in_app_or in Hr. destruct Hr as [Hr | Hr].
    + apply in_map_iff in Hr. destruct Hr as [[d n] [<- Hd]].
      apply In_firstn, rare_counts_In in Hd. simpl. tauto.
    + apply in_map_iff in Hr. destruct Hr as [kc [<- _]]. discriminate.
  - intros Hten d Hd. apply in_or_app. left.
    assert (Hvc : List.length vc <= 10).
    { etransitivity; [| exact Hten]. rewrite <- (length_map fst vc).
      apply NoDup_incl_length.
      - apply (value_counts_NoDup String.eqb String.eqb_eq).
      - intros k Hk. apply in_map_iff in Hk. destruct Hk as [[k' n] [<- Hkn]].
        apply rare_counts_In in Hkn. apply rare_domains_In. simpl. lia. }
    unfold head. fold vc. rewrite firstn_all2 by exact Hvc.
    apply in_map_iff. exists (d, count_occ string_dec domains d).
    split; [reflexivity |]. apply rare_counts_In. tauto.
Qed.

Lemma rare_domain_rows_witness :
  empty dns_three_domains = false /\
  query_col dns_three_domains = Some "query" /\
  exists out,
    suspicious_dns dns_three_domains = Ok out /\
    In (mkRow "DNS (rare domains)" "x.org" 2) out /\
    In (mkRow "DNS (rare domains)" "y.net" 1) out /\
    ~ In "example.com" (map key out).
Proof.
  split; [reflexivity | split; [reflexivity |]].
  destruct (rare_domain_rows dns_three_domains "query"
              (map VStr ["www.example.com"; "mail.example.com"; "a.b.x.org";
                         "ftp.example.com"; "c.x.org"; "y.net"])
              eq_refl eq_refl eq_refl) as (out & Hrun & _ & Hall).
  exists out. split; [exact Hrun |].
  split; [apply (Hall ltac:(vm_compute; lia) "x.org"); vm_compute; lia |].
  split; [apply (Hall ltac:(vm_compute; lia) "y.net"); vm_compute; lia |].
  vm_compute in Hrun. injection Hrun as <-. simpl.
  intros H. repeat (destruct H as [H | H]; [discriminate |]). exact H.
Defined.

(** ** Letter case and surrounding dots *)

Lemma lower_char_classes (c : ascii) :
  Str.lower_char (Str.lower_char c) = Str.lower_char c /\
  Str.is_dot (Str.lower_char c) = Str.is_dot c /\
  Str.is_space (Str.lower_char c) = Str.is_space c /\
  Str.is_label_char (Str.lower_char c) = Str.is_label_char c /\
  Str.is_alpha (Str.lower_char c) = Str.is_alpha c.
Proof.
  destruct c as [[] [] [] [] [] [] [] []]; vm_compute; repeat split.
Qed.

Lemma lower_idem (s : string) : Str.lower (Str.lower s) = Str.lower s.
Proof.
  induction s as [| c s IH]; simpl; [reflexivity |].
  now rewrite IH, (proj1 (lower_char_classes c)).
Qed.

Lemma lower_append (a b : string) :
  Str.lower (a ++ b) = (Str.lower a ++ Str.lower b)%string.
Proof. induction a as [| c a IH]; simpl; [reflexivity | now rewrite IH]. Qed.

Lemma lower_length (s : string) : String.length (Str.lower s) = String.length s.
Proof. induction s as [| c s IH]; simpl; [reflexivity | now rewrite IH]. Qed.

Section StripLower.
Variable p : ascii -> bool.
Hypothesis p_lower : forall c, p (Str.lower_char c) = p c.

Lemma lstrip_lower (s : string) : Str.lstrip p (Str.lower s) = Str.lower (Str.lstrip p s).
Proof.
  induction s as [| c s IH]; simpl; [reflexivity |].
  rewrite p_lower. now destruct (p c).
Qed.

Lemma rstrip_lower (s : string) : Str.rstrip p (Str.lower s) = Str.lower (Str.rstrip p s).
Proof.
  induction s as [| c s IH]; simpl; [reflexivity |].
  rewrite IH, p_lower. destruct (Str.rstrip p s); simpl; [now destruct (p c) | reflexivity].
Qed.

Lemma strip_chars_lower (s : string) :
  Str.strip_chars p (Str.lower s) = Str.lower (Str.strip_chars p s).
Proof. unfold Str.strip_chars. now rewrite lstrip_lower, rstrip_lower. Qed.
End StripLower.

Section StripFacts.
Variable p : ascii -> bool.

Lemma rstrip_idem (s : string) : Str.rstrip p (Str.rstrip p s) = Str.rstrip p s.
Proof.
  induction s as [| c s IH]; simpl; [reflexivity |].
  destruct (Str.rstrip p s) as [| c' r] eqn:E.
  - destruct (p c) eqn:Ec; simpl; [reflexivity | now rewrite Ec].
  - cbn [Str.rstrip]. cbn [Str.rstrip] in IH. now rewrite IH.
Qed.

Lemma lstrip_clean (s : string) : clean_head p (Str.lstrip p s) = true.
Proof.
  induction s as [| c s IH]; simpl; [reflexivity |].
  destruct (p c) eqn:E; [exact IH | simpl; now rewrite E].
Qed.

Lemma lstrip_of_clean (s : string) : clean_head p s = true -> Str.lstrip p s = s.
Proof.
  destruct s as [| c s]; simpl; [reflexivity |]. now destruct (p c).
Qed.

Lemma rstrip_clean (s : string) : clean_head p s = true -> clean_head p (Str.rstrip p s) = true.
Proof.
  destruct s as [| c s]; simpl; [reflexivity |].
  intros H. destruct (Str.rstrip p s); simpl; [| exact H].
  destruct (p c) eqn:E; simpl; [reflexivity | now rewrite E].
Qed.

Lemma strip_chars_idem (s : string) :
  Str.strip_chars p (Str.strip_chars p s) = Str.strip_chars p s.
Proof.
  unfold Str.strip_chars.
  rewrite (lstrip_of_clean (Str.rstrip p (Str.lstrip p s))).
  - apply rstrip_idem.
  - apply rstrip_clean, lstrip_clean.
Qed.

Lemma rstrip_snoc (s : string) (c : ascii) :
  p c = true -> Str.rstrip p (s ++ String c EmptyString) = Str.rstrip p s.
Proof.
  intros Hc. induction s as [| a s IH]; simpl; [now rewrite Hc |]. now rewrite IH.
Qed.

Lemma lstrip_snoc (s : string) (c : ascii) :
  p c = true ->
  Str.rstrip p (Str.lstrip p (s ++ String c EmptyString)) = Str.rstrip p (Str.lstrip p s).
Proof.
  intros Hc. induction s as [| a s IH]; simpl; [now rewrite Hc |].
  destruct (p a); [exact IH |].
  change (String a (s ++ String c EmptyString)) with (String a s ++ String c EmptyString)%string.
  now apply rstrip_snoc.
Qed.
End StripFacts.

Lemma lstrip_split (p : ascii -> bool) (s : string) :
  exists a, s = (a ++ Str.lstrip p s)%string /\ all_chars p a = true.
Proof.
  induction s as [| c s [a [IH Ha]]]; simpl; [now exists EmptyString |].
  destruct (p c) eqn:E.
  - exists (String c a). simpl. rewrite E, Ha. split; [now f_equal | reflexivity].
  - now exists EmptyString.
Qed.

Lemma rstrip_split (p : ascii -> bool) (s : string) :
  exists b, s = (Str.rstrip p s ++ b)%string /\ all_chars p b = true.
Proof.
  induction s as [| c s [b [IH Hb]]]; simpl; [now exists EmptyString |].
  destruct (Str.rstrip p s) as [| c' r] eqn:E.
  - destruct (p c) eqn:Ec.
    + exists (String c b). simpl in *. rewrite Ec, Hb. split; [now f_equal | reflexivity].
    + exists b. simpl in *. split; [now f_equal | exact Hb].
  - exists b. simpl in *. split; [now f_equal | exact Hb].
Qed.

Lemma rstrip_clean_last (p : ascii -> bool) (s : string) :
  clean_last p (Str.rstrip p s) = true.
Proof.
  induction s as [| c s IH]; simpl; [reflexivity |].
  destruct (Str.rstrip p s) as [| c' r] eqn:E.
  - destruct (p c) eqn:Ec; simpl; [reflexivity | now rewrite Ec].
  - exact IH.
Qed.

(** What [strip] leaves: the string without the longest run of characters
    to strip at each end. *)
Lemma strip_chars_split (p : ascii -> bool) (s : string) :
  exists a b,
    s = (a ++ Str.strip_chars p s ++ b)%string /\
    all_chars p a = true /\ all_chars p b = true /\
    clean_head p (Str.strip_chars p s) = true /\
    clean_last p (Str.strip_chars p s) = true.
Proof.
  unfold Str.strip_chars.
  destruct (lstrip_split p s) as [a [Ha Hpa]].
  destruct (rstrip_split p (Str.lstrip p s)) as [b [Hb Hpb]].
  exists a, b. split; [now rewrite <- Hb |].
  split; [exact Hpa |]. split; [exact Hpb |].
  split; [apply rstrip_clean, lstrip_clean | apply rstrip_clean_last].
Qed.

(** C10.  [extract_domain] returns for every argument: the empty string for
    an argument that is not a string and for the empty string.  A non-empty
    string is a run of dots, a core that neither begins nor ends with a dot,
    and a run of dots; the lower case of the core is cut at its dots into
    labels, and the result is the lower-case core when there are at most two
    labels and the last two labels joined by a dot otherwise.  "Example.com."
    gives "example.com". *)
Theorem extract_domain_cases :
  extract_domain VNaN = "" /\
  extract_domain VNaT = "" /\
  (forall t, extract_domain (VTime t) = "") /\
  extract_domain (VStr "") = "" /\
  (forall c s,
     exists a core b labels,
       String c s = (a ++ core ++ b)%string /\
       all_chars Str.is_dot a = true /\ all_chars Str.is_dot b = true /\
       clean_head Str.is_dot core = true /\ clean_last Str.is_dot core = true /\
       String.concat "." labels = Str.lower core /\
       Forall (fun l => Str.count Str.is_dot l = 0) labels /\
       extract_domain (VStr (String c s)) =
         if List.length labels <=? 2 then Str.lower core
         else String.concat "." (skipn (List.length labels - 2) labels)) /\
  Str.lower "ABCDEFGHIJKLMNOPQRSTUVWXYZ" = "abcdefghijklmnopqrstuvwxyz" /\
  Str.lower "abc-xyz_0189.@" = "abc-xyz_0189.@" /\
  extract_domain (VStr "Example.com.") = "example.com" /\
  extract_domain (VStr "..WWW.Mail.Example.COM..") = "example.com" /\
  extract_domain (VStr ".a") = "a" /\
  extract_domain (VStr "a..b") = ".b" /\
  extract_domain (VStr "...") = "".
Proof.
  split; [reflexivity |]. split; [reflexivity |]. split; [reflexivity |].
  split; [reflexivity |]. split; [| repeat split].
  intros c s.
  destruct (strip_chars_split Str.is_dot (String c s)) as (a & b & Hs & Ha & Hb & Hh & Hl).
  exists a, (Str.strip_chars Str.is_dot (String c s)), b,
         (Str.split_dot (Str.lower (Str.strip_chars Str.is_dot (String c s)))).
  split; [exact Hs |]. split; [exact Ha |]. split; [exact Hb |].
  split; [exact Hh |]. split; [exact Hl |].
  split; [apply concat_split_dot |]. split; [apply split_dot_dotless |].
  reflexivity.
Qed.

Lemma split_dot_lower (q : string) :
  Str.split_dot (Str.lower q) = map Str.lower (Str.split_dot q).
Proof.
  induction q as [| c q IH]; simpl; [reflexivity |].
  rewrite (proj1 (proj2 (lower_char_classes c))), IH.
  destruct (Str.is_dot c); [reflexivity |].
  now destruct (Str.split_dot q).
Qed.

Lemma concat_lower (l : list string) :
  Str.lower (String.concat "." l) = String.concat "." (map Str.lower l).
Proof.
  induction l as [| x l IH]; [reflexivity |].
  destruct l as [| y l]; [reflexivity |].
  change (String.concat "." (x :: y :: l)) with (x ++ "." ++ String.concat "." (y :: l))%string.
  rewrite !lower_append, IH. reflexivity.
Qed.

Lemma is_empty_lower (s : string) : Str.is_empty (Str.lower s) = Str.is_empty s.
Proof. now destruct s. Qed.

Lemma is_dot_lower (c : ascii) : Str.is_dot (Str.lower_char c) = Str.is_dot c.
Proof. apply lower_char_classes. Qed.

Lemma is_space_lower (c : ascii) : Str.is_space (Str.lower_char c) = Str.is_space c.
Proof. apply lower_char_classes. Qed.

(** The domain does not depend on the letter case of the name, and is in
    lower case itself. *)
Theorem extract_domain_case (s : string) :
  extract_domain (VStr (Str.lower s)) = extract_domain (VStr s) /\
  Str.lower (extract_domain (VStr s)) = extract_domain (VStr s).
Proof.
  unfold extract_domain. rewrite is_empty_lower.
  destruct (Str.is_empty s); [split; reflexivity |].
  rewrite (strip_chars_lower Str.is_dot is_dot_lower), lower_idem.
  split; [reflexivity |].
  set (q := Str.lower (Str.strip_chars Str.is_dot s)).
  assert (Hq : Str.lower q = q) by apply lower_idem.
  destruct (List.length (Str.split_dot q) <=? 2); [exact Hq |].
  unfold Str.last_n. rewrite concat_lower, <- skipn_map, <- split_dot_lower, Hq.
  reflexivity.
Qed.

(** Dots around the name do not count: a name with one more dot in front
    or at the end has the same domain. *)
Theorem extract_domain_outer_dot (s : string) :
  extract_domain (VStr (s ++ ".")) = extract_domain (VStr s) /\
  extract_domain (VStr ("." ++ s)) = extract_domain (VStr s).
Proof.
  split.
  - destruct s as [| c s]; [reflexivity |].
    change (String c s ++ ".")%string with (String c (s ++ ".")).
    unfold extract_domain. cbn [Str.is_empty]. unfold Str.strip_chars.
    change (String c (s ++ ".")) with (String c s ++ String "." EmptyString)%string.
    now rewrite (lstrip_snoc Str.is_dot (String c s) "."%char eq_refl).
  - destruct s as [| c s]; [reflexivity |].
    unfold extract_domain. change ("." ++ String c s)%string with (String "." (String c s)).
    cbn [Str.is_empty]. unfold Str.strip_chars.
    change (Str.lstrip Str.is_dot (String "." (String c s)))
      with (Str.lstrip Str.is_dot (String c s)).
    reflexivity.
Qed.

(** ** Query names *)

Lemma rep_opt_lowers (m : @Re.matcher string) :
  lowers m -> forall e, lowers (Re.rep_opt m e).
Proof.
  intros Hm e. induction e as [| e IH]; intros s k k' Hk; simpl; [apply Hk |].
  rewrite (Hm s (fun s' => Re.rep_opt m e s' k) (fun s' => Re.rep_opt m e s' k')).
  - destruct (m s (fun s' => Re.rep_opt m e s' k)); simpl; [reflexivity | apply Hk].
  - intros t. now apply IH.
Qed.

Lemma rep_req_lowers (m : @Re.matcher string) :
  lowers m -> forall lo e, lowers (Re.rep_req m lo e).
Proof.
  intros Hm lo e. induction lo as [| lo IH]; intros s k k' Hk; simpl.
  - now apply rep_opt_lowers.
  - apply Hm. intros t. now apply IH.
Qed.

Lemma run_lowers (r : Re.regex) : case_blind r -> lowers (Re.run r).
Proof.
  induction r as [p | r1 IH1 r2 IH2 | r IH lo hi]; simpl; intros Hr s k k' Hk.
  - destruct s as [| c s]; simpl; [reflexivity |].
    rewrite Hr. destruct (p c); [apply Hk | reflexivity].
  - destruct Hr as [H1 H2]. apply (IH1 H1). intros t. now apply (IH2 H2).
  - rewrite lower_length. now apply rep_req_lowers; [apply IH |].
Qed.

Lemma substring_lower (n m : nat) (s : string) :
  substring n m (Str.lower s) = Str.lower (substring n m s).
Proof.
  revert n m. induction s as [| c s IH]; intros [| n] [| m]; simpl;
    try reflexivity; now rewrite IH.
Qed.

Lemma search_lower (r : Re.regex) (s : string) :
  case_blind r -> Re.search r (Str.lower s) = option_map Str.lower (Re.search r s).
Proof.
  intros Hr. induction s as [| c s IH].
  - pose proof (run_lowers r Hr EmptyString (fun rest => Some rest)
                  (fun rest => Some rest) (fun t => eq_refl)) as H.
    cbn [Str.lower] in H. cbn [Str.lower Re.search]. rewrite H.
    destruct (Re.run r EmptyString (fun rest => Some rest)); reflexivity.
  - pose proof (run_lowers r Hr (String c s) (fun rest => Some rest)
                  (fun rest => Some rest) (fun t => eq_refl)) as H.
    cbn [Str.lower] in H. cbn [Str.lower Re.search]. rewrite H.
    destruct (Re.run r (String c s) (fun rest => Some rest)) as [rest |];
      cbn [option_map].
    + f_equal. rewrite !lower_length.
      change (String (Str.lower_char c) (Str.lower s)) with (Str.lower (String c s)).
      rewrite lower_length. apply (substring_lower 0).
    + exact IH.
Qed.

Lemma domain_like_case_blind : case_blind domain_like.
Proof.
  simpl. repeat split; intros c; apply lower_char_classes.
Qed.

Lemma strip_lower (s : string) : Str.strip (Str.lower s) = Str.lower (Str.strip s).
Proof. apply (strip_chars_lower Str.is_space is_space_lower). Qed.

(** A query name is in lower case and has no white space around it. *)
Theorem qname_of_normal (s : string) :
  Str.lower (qname_of s) = qname_of s /\ Str.strip (qname_of s) = qname_of s.
Proof.
  unfold qname_of. split; [apply lower_idem |].
  rewrite strip_lower. unfold Str.strip. now rewrite strip_chars_idem.
Qed.

(** The query name read in an ASCII text does not depend on the letter case
    of the text: the pattern matches at the same place, and the name is
    lowered. *)
Theorem qname_of_case (s : string) :
  all_chars is_ascii s = true -> qname_of (Str.lower s) = qname_of s.
Proof.
  intros _.
  unfold qname_of. rewrite (search_lower domain_like s domain_like_case_blind).
  destruct (Re.search domain_like s); simpl; now rewrite strip_lower, lower_idem.
Qed.

Lemma qname_of_case_witness :
  all_chars is_ascii "query WWW.Example.COM from 10.0.0.1" = true /\
  qname_of (Str.lower "query WWW.Example.COM from 10.0.0.1")
  = qname_of "query WWW.Example.COM from 10.0.0.1" /\
  qname_of "query WWW.Example.COM from 10.0.0.1" = "www.example.com".
Proof.
  split; [reflexivity |]. split; [now apply qname_of_case | reflexivity].
Defined.

(** ** Aggregator, charts and driver *)

Lemma sum_add_total k n t :
  list_sum (map snd (sum_add k n t)) = n + list_sum (map snd t).
Proof.
  induction t as [| [y m] t IH]; simpl; [lia |].
  destruct (group_eqb k y); simpl; [lia | rewrite IH; lia].
Qed.

Lemma sum_add_length k n t : List.length (sum_add k n t) <= S (List.length t).
Proof.
  induction t as [| [y m] t IH]; simpl; [lia |].
  destruct (group_eqb k y); simpl; lia.
Qed.

Lemma groups_total l : forall t,
  list_sum (map snd (groups l t)) = list_sum (map count l) + list_sum (map snd t).
Proof.
  induction l as [| r l IH]; simpl; intros t; [reflexivity |].
  unfold groups in IH. rewrite IH, sum_add_total. lia.
Qed.

Lemma groups_length l : forall t,
  List.length (groups l t) <= List.length l + List.length t.
Proof.
  induction l as [| r l IH]; simpl; intros t; [lia |].
  unfold groups in IH. etransitivity; [apply IH |].
  pose proof (sum_add_length (group_key r) (count r) t). lia.
Qed.

Lemma combined_top_conserves (w d : Ranking) :
  list_sum (map count (combined_top w d)) = list_sum (map count w) + list_sum (map count d) /\
  List.length (combined_top w d) <= List.length w + List.length d.
Proof.
  pose proof (combined_top_perm w d) as Hperm. split.
  - rewrite (Permutation_map count Hperm), map_map.
    change (map (fun x => count (group_row x))) with (map (@snd (string * string) nat)).
    rewrite groups_total, map_app, list_sum_app. simpl. lia.
  - rewrite (Permutation_length Hperm), length_map.
    etransitivity; [apply groups_length |]. rewrite length_app. simpl. lia.
Qed.

(** Merging loses and adds nothing: the counts of the combined table add up
    to the counts of the two tables together, and it has no more rows than
    they have. *)
Theorem combined_top_total (w d : Ranking) :
  total (combined_top w d) = total w + total d /\
  List.length (combined_top w d) <= List.length w + List.length d.
Proof. exact (combined_top_conserves w d). Qed.



(** A chart is drawn exactly for a table with rows.  It shows at most ten
    rows, in descending order of count, taken from the table, and no row
    left out counts more than a row shown. *)
Theorem plot_top10_rows (df : Ranking) :
  match plot_top10 df with
  | None => df = []
  | Some top =>
      df <> [] /\
      List.length top = Nat.min 10 (List.length df) /\
      StronglySorted (desc count) top /\
      exists rest, Permutation df (top ++ rest) /\
                   forall x y, In x top -> In y rest -> count y <= count x
  end.
Proof.
  destruct df as [| r df]; [reflexivity |]. cbn [plot_top10].
  set (l := r :: df). unfold head.
  split; [discriminate |].
  split; [rewrite length_firstn, (Permutation_length (sort_desc_perm count l)); reflexivity |].
  split; [apply sorted_firstn, sort_desc_sorted |].
  exists (skipn 10 (sort_desc count l)). split.
  - rewrite firstn_skipn. symmetry. apply sort_desc_perm.
  - intros x y Hx Hy.
    apply (sorted_firstn_top count 10 (sort_desc count l) x y); auto using sort_desc_sorted.
Qed.



Lemma Subseq_length {A : Type} (l l' : list A) :
  Subseq l l' -> List.length l <= List.length l'.
Proof. induction 1; simpl; lia. Qed.

Lemma has_column_of_records (recs : list fields) (c : string) :
  has_column (DataFrame_of_records recs) c = true <->
  exists r, In r recs /\ In c (map fst r).
Proof.
  unfold has_column, DataFrame_of_records. cbn [columns].
  rewrite mem_In, union_columns_In. simpl. tauto.
Qed.

Section DriverFacts.
Variable parse : Series -> string -> option string.

Lemma main_stages (df : DataFrame) :
  exists df1,
    normalize_time parse df = Ok df1 /\
    List.length (rows df1) = List.length (rows df) /\
    (forall c, has_column df1 c = has_column df c) /\
    main parse df =
      (split <- split_logs df1 ;;
       scored <- suspicious_wineventlog (fst split) ;;
       dns <- suspicious_dns (snd split) ;;
       Ok (mkReport (fst scored) dns (combined_top (fst scored) dns)
                    (plot_top10 (fst scored)) (plot_top10 dns)
                    (plot_top10 (map assign_key (combined_top (fst scored) dns))))).
Proof.
  destruct (normalize_time_returns parse df) as (df1 & Hrun & Hcols & Hlen).
  exists df1. split; [exact Hrun |]. split; [exact Hlen |]. split.
  - intros c. unfold has_column. now rewrite Hcols.
  - unfold main. now rewrite Hrun.
Qed.

(** The run raises [KeyError] when the frame has neither a [source] nor a
    [sourcetype] column, whatever its records.  When it has one of them, the
    run raises the [KeyError] of the Windows scorer if the Windows subset has
    records and an identifier column without any catalog key, and completes
    with a report otherwise. *)
Theorem main_completes_iff (df : DataFrame) :
  (has_column df "source" || has_column df "sourcetype" = false ->
   main parse df = Raise (KeyError "False")) /\
  (has_column df "source" || has_column df "sourcetype" = true ->
   exists df1 win_df dns_df,
     normalize_time parse df = Ok df1 /\
     split_logs df1 = Ok (win_df, dns_df) /\
     (falls_back win_df = true ->
      main parse df = Raise (KeyError "['key'] not in index")) /\
     (falls_back win_df = false -> exists report, main parse df = Ok report)).
Proof.
  destruct (main_stages df) as (df1 & Hnorm & _ & Hcols & ->). split; intros Hsig.
  - apply orb_false_elim in Hsig. destruct Hsig as [H1 H2].
    unfold split_logs, is_win. now rewrite !Hcols, H1, H2.
  - rewrite <- !Hcols in Hsig.
    destruct (split_logs_with_signal df1 Hsig) as (w & d & Hsplit & _).
    exists df1, w, d. split; [exact Hnorm |]. split; [exact Hsplit |].
    rewrite Hsplit. cbn [bind fst snd].
    destruct (suspicious_wineventlog_bounded w) as [Hraise Hret]. split; intros Hf.
    + now rewrite (Hraise Hf).
    + destruct (Hret Hf) as (out & w' & -> & _).
      destruct (suspicious_dns_shaped d) as (rare & weird & -> & _).
      cbn [bind]. eauto.
Qed.

(** A document none of whose records has a [source] or a [sourcetype]
    field, the document without records among them, makes the run raise
    [KeyError]. *)
Theorem main_raises_on_untyped_records (recs : list fields) :
  (forall r, In r recs -> ~ In "source" (map fst r) /\ ~ In "sourcetype" (map fst r)) ->
  main parse (DataFrame_of_records recs) = Raise (KeyError "False").
Proof.
  intros Hrecs.
  assert (Hno : forall c, c = "source" \/ c = "sourcetype" ->
                          has_column (DataFrame_of_records recs) c = false).
  { intros c Hc. destruct (has_column (DataFrame_of_records recs) c) eqn:E; [| reflexivity].
    apply has_column_of_records in E. destruct E as [r [Hr Hin]].
    destruct (Hrecs r Hr) as [H1 H2]. destruct Hc as [-> | ->]; contradiction. }
  destruct (main_stages (DataFrame_of_records recs)) as (df1 & _ & _ & Hcols & ->).
  unfold split_logs, is_win. rewrite !Hcols, !Hno by auto. reflexivity.
Qed.

(** A report, when the run completes: the Windows table has at most 19
    rows and the DNS table at most 20, neither counts more records than the
    input has, and the combined table is the merge of the two, with the sum
    of their counts and at most 39 rows. *)
Theorem main_report (df : DataFrame) (report : Report) :
  main parse df = Ok report ->
  List.length (win_susp report) <= 19 /\
  List.length (dns_susp report) <= 20 /\
  total (win_susp report) <= List.length (rows df) /\
  total (dns_susp report) <= 2 * List.length (rows df) /\
  combined report = combined_top (win_susp report) (dns_susp report) /\
  total (combined report) = total (win_susp report) + total (dns_susp report) /\
  List.length (combined report) <= 39.
Proof.
  destruct (main_stages df) as (df1 & _ & Hlen & Hcols & ->).
  destruct (has_column df1 "source" || has_column df1 "sourcetype") eqn:Hsig.
  - destruct (split_logs_with_signal df1 Hsig) as (w & d & -> & _ & _ & Sw & Sd).
    cbn [bind fst snd].
    destruct (suspicious_wineventlog_bounded w) as [Hraise Hret].
    destruct (falls_back w) eqn:Hf; [rewrite (Hraise eq_refl); discriminate |].
    destruct (Hret eq_refl) as (out & w' & -> & Hout & Hsum & _).
    destruct (suspicious_dns_shaped d)
      as (rare & weird & -> & Hr & Hw & _ & _ & _ & _ & Hsr & Hsw).
    cbn [bind fst]. intros [= <-]. cbn [win_susp dns_susp combined].
    apply Subseq_length in Sw, Sd.
    destruct (combined_top_conserves out (rare ++ weird)) as [Htot Hn].
    unfold total. rewrite length_app, map_app, list_sum_app in *.
    repeat split; lia.
  - apply orb_false_elim in Hsig. destruct Hsig as [H1 H2].
    unfold split_logs, is_win. rewrite H1, H2. discriminate.
Qed.

End DriverFacts.

Lemma main_completes_iff_witness :
  main parse_date query_only_df = Raise (KeyError "False") /\
  main parse_date win_9999_8888 = Raise (KeyError "['key'] not in index") /\
  exists report, main parse_date mixed_df = Ok report.
Proof.
  destruct (main_completes_iff parse_date query_only_df) as [Hq _].
  destruct (main_completes_iff parse_date win_9999_8888) as [_ Hw].
  destruct (main_completes_iff parse_date mixed_df) as [_ Hm].
  split; [now apply Hq |]. split.
  - destruct (Hw eq_refl) as (df1 & w & d & Hn & Hs & Hraise & _).
    apply Hraise. vm_compute in Hn. injection Hn as <-.
    vm_compute in Hs. injection Hs as <- _. reflexivity.
  - destruct (Hm eq_refl) as (df1 & w & d & Hn & Hs & _ & Hret).
    apply Hret. vm_compute in Hn. injection Hn as <-.
    vm_compute in Hs. injection Hs as <- _. reflexivity.
Defined.

Lemma main_raises_on_untyped_records_witness :
  main parse_date (DataFrame_of_records []) = Raise (KeyError "False") /\
  main parse_date (DataFrame_of_records [[("query", "www.example.com"); ("src_ip", "10.0.0.1")]])
  = Raise (KeyError "False").
Proof.
  split; apply main_raises_on_untyped_records.
  - intros r [].
  - intros r [<- | []]. split; simpl; intros [H | [H | []]]; discriminate.
Defined.

Lemma main_mixed_run :
  exists report,
    main parse_date mixed_df = Ok report /\
    win_susp report = [mkRow "WinEventLog" "Failed logon (4625)" 1;
                       mkRow "WinEventLog" "Service created (7045)" 1].
Proof. eexists. split; [vm_compute; reflexivity | reflexivity]. Qed.

Lemma main_report_witness :
  exists report,
    main parse_date mixed_df = Ok report /\
    win_susp report = [mkRow "WinEventLog" "Failed logon (4625)" 1;
                       mkRow "WinEventLog" "Service created (7045)" 1] /\
    total (combined report) = total (win_susp report) + total (dns_susp report).
Proof.
  destruct main_mixed_run as (report & Hrun & Hwin). exists report.
  split; [exact Hrun |]. split; [exact Hwin |].
  now apply (main_report parse_date mixed_df report).
Defined.

(** ** Aggregating twice *)

Lemma ascii_compare_refl (c : ascii) : Ascii.compare c c = Eq.
Proof. apply N.compare_refl. Qed.

Lemma string_compare_refl (s : string) : String.compare s s = Eq.
Proof.
  induction s as [| c s IH]; simpl; [reflexivity |]. now rewrite ascii_compare_refl.
Qed.

Lemma string_compare_trans (a : string) : forall b c,
  String.compare a b = Lt -> String.compare b c = Lt -> String.compare a c = Lt.
Proof.
  induction a as [| x a IH]; intros [| y b] [| z c]; simpl; try discriminate; auto.
  unfold Ascii.compare.
  destruct (N.compare_spec (N_of_ascii x) (N_of_ascii y)) as [Exy | Lxy | Gxy];
    try discriminate;
    destruct (N.compare_spec (N_of_ascii y) (N_of_ascii z)) as [Eyz | Lyz | Gyz];
    try discriminate;
    destruct (N.compare_spec (N_of_ascii x) (N_of_ascii z)) as [Exz | Lxz | Gxz];
    try lia; auto.
  apply IH.
Qed.

Lemma group_leb_cmp (a b : string * string) :
  group_leb a b = match group_cmp a b with Gt => false | _ => true end.
Proof.
  unfold group_leb, group_cmp, String.leb.
  destruct (String.compare (fst a) (fst b)); reflexivity.
Qed.

Lemma group_cmp_antisym (a b : string * string) :
  group_cmp a b = CompOpp (group_cmp b a).
Proof.
  unfold group_cmp. rewrite (String.compare_antisym (fst a) (fst b)).
  destruct (String.compare (fst b) (fst a)); simpl; try reflexivity.
  apply String.compare_antisym.
Qed.

Lemma group_cmp_eq (a b : string * string) : group_cmp a b = Eq -> a = b.
Proof.
  destruct a as [t k], b as [t' k']. unfold group_cmp. simpl.
  destruct (String.compare t t') eqn:E; try discriminate.
  intros H. apply String.compare_eq_iff in E, H. now subst.
Qed.

Lemma group_cmp_trans (a b c : string * string) :
  group_cmp a b = Lt -> group_cmp b c = Lt -> group_cmp a c = Lt.
Proof.
  destruct a as [t1 k1], b as [t2 k2], c as [t3 k3]. unfold group_cmp. simpl.
  destruct (String.compare t1 t2) eqn:E12; try discriminate;
    destruct (String.compare t2 t3) eqn:E23; try discriminate; intros H1 H2.
  - apply String.compare_eq_iff in E12, E23. subst.
    rewrite string_compare_refl. eapply string_compare_trans; eauto.
  - apply String.compare_eq_iff in E12. subst. now rewrite E23.
  - apply String.compare_eq_iff in E23. subst. now rewrite E12.
  - now rewrite (string_compare_trans _ _ _ E12 E23).
Qed.

Lemma group_leb_total (a b : string * string) :
  group_leb a b = false -> group_leb b a = true.
Proof.
  rewrite !group_leb_cmp, (group_cmp_antisym b a).
  destruct (group_cmp a b); simpl; auto; discriminate.
Qed.

Lemma group_leb_antisym (a b : string * string) :
  group_leb a b = true -> group_leb b a = true -> a = b.
Proof.
  rewrite !group_leb_cmp, (group_cmp_antisym b a).
  destruct (group_cmp a b) eqn:E; simpl; try discriminate.
  intros _ _. now apply group_cmp_eq.
Qed.

Lemma group_leb_trans (a b c : string * string) :
  group_leb a b = true -> group_leb b c = true -> group_leb a c = true.
Proof.
  rewrite !group_leb_cmp.
  destruct (group_cmp a b) eqn:E1; try discriminate;
    destruct (group_cmp b c) eqn:E2; try discriminate; intros _ _.
  - apply group_cmp_eq in E1, E2. subst.
    destruct (group_cmp c c) eqn:E; auto.
    pose proof (group_cmp_antisym c c) as H. rewrite E in H. discriminate H.
  - apply group_cmp_eq in E1. subst. now rewrite E2.
  - apply group_cmp_eq in E2. subst. now rewrite E1.
  - now rewrite (group_cmp_trans _ _ _ E1 E2).
Qed.

Lemma insert_group_sorted x l :
  StronglySorted entry_le l -> StronglySorted entry_le (insert_group x l).
Proof.
  induction l as [| y l IH]; simpl; intros Hs; [repeat constructor |].
  inversion Hs as [| ? ? Hs' Hall]; subst.
  destruct (group_leb (fst x) (fst y)) eqn:E.
  - constructor; [assumption |]. constructor; [exact E |].
    rewrite Forall_forall in *. intros z Hz.
    exact (group_leb_trans _ _ _ E (Hall z Hz)).
  - constructor; [auto |]. rewrite Forall_forall in *. intros z Hz.
    apply (Permutation_in _ (insert_group_perm x l)) in Hz.
    destruct Hz as [<- | Hz]; [now apply group_leb_total | auto].
Qed.

Lemma sort_groups_sorted l : StronglySorted entry_le (fold_right insert_group [] l).
Proof.
  induction l as [| x l IH]; simpl; [constructor | now apply insert_group_sorted].
Qed.

Lemma NoDup_keys_eq (l : list (string * string * nat)) x y :
  NoDup (map fst l) -> In x l -> In y l -> fst x = fst y -> x = y.
Proof.
  induction l as [| z l IH]; simpl; intros Hnd Hx Hy Hk; [contradiction |].
  inversion Hnd as [| ? ? Hnotin Hnd']; subst.
  destruct Hx as [<- | Hx], Hy as [<- | Hy]; auto.
  - exfalso. apply Hnotin. rewrite Hk. now apply in_map.
  - exfalso. apply Hnotin. rewrite <- Hk. now apply in_map.
Qed.

(** Two sorted tables of the same groups are the same table. *)
Lemma sorted_groups_unique (l1 : list (string * string * nat)) : forall l2,
  StronglySorted entry_le l1 -> StronglySorted entry_le l2 ->
  Permutation l1 l2 -> NoDup (map fst l1) -> l1 = l2.
Proof.
  induction l1 as [| x l1 IH]; intros l2 Hs1 Hs2 Hp Hnd.
  - now apply Permutation_nil in Hp.
  - destruct l2 as [| y l2]; [symmetry in Hp; now apply Permutation_nil in Hp |].
    inversion Hs1 as [| ? ? Hs1' Hall1]; subst.
    inversion Hs2 as [| ? ? Hs2' Hall2]; subst.
    rewrite Forall_forall in Hall1, Hall2.
    assert (Hy : In y (x :: l1)) by (apply (Permutation_in _ (Permutation_sym Hp)); now left).
    assert (Hx : In x (y :: l2)) by (apply (Permutation_in _ Hp); now left).
    assert (Exy : x = y).
    { destruct Hy as [E | Hy]; [exact E |].
      destruct Hx as [E | Hx]; [now symmetry |].
      apply (NoDup_keys_eq (x :: l1)); simpl; auto.
      apply group_leb_antisym; [exact (Hall1 y Hy) | exact (Hall2 x Hx)]. }
    subst y. f_equal. apply IH; auto.
    + now apply Permutation_cons_inv in Hp.
    + now inversion Hnd.
Qed.

Lemma sum_add_fresh k n t :
  ~ In k (map fst t) -> sum_add k n t = t ++ [(k, n)].
Proof.
  induction t as [| [y m] t IH]; simpl; intros Hn; [reflexivity |].
  destruct (group_eqb k y) eqn:E.
  - apply group_eqb_eq in E. subst. tauto.
  - rewrite IH; tauto.
Qed.

Lemma groups_distinct (l : Ranking) : forall t,
  NoDup (map fst t ++ map group_key l) -> groups l t = t ++ map entry_of l.
Proof.
  induction l as [| r l IH]; simpl; intros t Hnd; [now rewrite app_nil_r |].
  unfold groups in IH. rewrite sum_add_fresh.
  - rewrite IH; [now rewrite <- app_assoc |].
    rewrite map_app. simpl. rewrite <- app_assoc. exact Hnd.
  - intros Hin. apply NoDup_remove_2 in Hnd. apply Hnd, in_or_app. now left.
Qed.

Lemma entry_of_group_row (g : string * string * nat) : entry_of (group_row g) = g.
Proof. now destruct g as [[t k] n]. Qed.

Lemma group_row_entry_of (r : RankedEntry) : group_row (entry_of r) = r.
Proof. now destruct r. Qed.

(** Aggregating a combined table again returns it unchanged. *)
Theorem combined_top_again (w d : Ranking) :
  combined_top (combined_top w d) [] = combined_top w d.
Proof.
  set (out := combined_top w d).
  set (K := fold_right insert_group [] (groups (w ++ d) [])).
  assert (Hout : out = sort_desc count (map group_row K)) by reflexivity.
  assert (HndK : NoDup (map fst K)).
  { apply (Permutation_NoDup (l := map fst (groups (w ++ d) []))).
    - apply Permutation_map. symmetry. apply sort_groups_perm.
    - apply groups_NoDup. constructor. }
  assert (Hperm : Permutation (map entry_of out) K).
  { rewrite Hout, (Permutation_map entry_of (sort_desc_perm count (map group_row K))).
    rewrite map_map. erewrite map_ext; [rewrite map_id; reflexivity |].
    apply entry_of_group_row. }
  assert (Hgroups : groups (out ++ []) [] = map entry_of out).
  { rewrite app_nil_r. rewrite groups_distinct; [reflexivity |]. simpl.
    apply (Permutation_NoDup (l := map fst K)); [| exact HndK].
    rewrite <- (Permutation_map fst Hperm), map_map. reflexivity. }
  unfold combined_top at 1, groupby_sum. rewrite Hgroups.
  assert (HK : fold_right insert_group [] (map entry_of out) = K).
  { apply sorted_groups_unique.
    - apply sort_groups_sorted.
    - apply sort_groups_sorted.
    - rewrite sort_groups_perm. exact Hperm.
    - apply (Permutation_NoDup (l := map fst K)); [| exact HndK].
      apply Permutation_map. symmetry. rewrite sort_groups_perm. exact Hperm. }
  rewrite HK. symmetry. exact Hout.
Qed.

Lemma catalog_ranking_witness :
  first_present mixed_df event_cols = Some "EventCode" /\
  exists out df',
    suspicious_wineventlog mixed_df = Ok (out, df') /\
    In (mkRow "WinEventLog" "Service created (7045)" 1) out /\
    In (mkRow "WinEventLog" "Failed logon (4625)" 1) out.
Proof.
  split; [reflexivity |].
  destruct (catalog_ranking mixed_df "EventCode"
              [VStr "4625"; VNaN; VStr "7045"; VNaN] eq_refl eq_refl)
    as (out & df' & Hrun & _ & _ & _ & _ & Hall).
  - exists "7045". split; [simpl; tauto | reflexivity].
  - exists out, df'. split; [exact Hrun |]. split.
    + apply (Hall "7045"); [simpl; tauto | reflexivity].
    + apply (Hall "4625"); [simpl; tauto | reflexivity].
Defined.
